(** * go-socket-storm: the connection lifecycle engine of [index.go]

    A shallow embedding of [main]'s ramp loop and shutdown goroutines, of
    [worker] and of the shared counters, followed by the properties the
    specification states about them.

    Conventions.
    - Go [int] and [int64] values are [Z]; [atomic.AddInt64] wraps around
      at 64 bits ([wrap64]).
    - [time.Duration] is a number of nanoseconds, as in package [time].
    - A channel that is only ever closed ([shutdown], [done]) is its state
      [Open] or [Closed]; closing a closed channel panics.
    - What [worker] asks of the outside world in one loop iteration (the
      result of [Dial], of [ReadMessage], of the ping [WriteMessage]) is an
      [Outcome]; what it does to the outside world is a list of [Effect]s in
      program order.
    - [defer] pushes on an explicit stack that runs, last pushed first, only
      when the function returns. *)

From Stdlib Require Import String.
From Stdlib Require Import ZArith Lia Bool List.
From stdpp Require Import base list.
Import ListNotations.
Local Open Scope Z_scope.

(** ** Integers and time *)

Definition MaxInt64 : Z := 2 ^ 63 - 1.
Definition MinInt64 : Z := - 2 ^ 63.

(** Two's complement wrap-around of a 64-bit signed integer. *)
Definition wrap64 (z : Z) : Z := (z + 2 ^ 63) mod 2 ^ 64 - 2 ^ 63.

(** [atomic.AddInt64(&x, delta)]: the new value of [x]. *)
Definition AddInt64 (x delta : Z) : Z := wrap64 (x + delta).

Module time.
(** [time.Duration] counts nanoseconds. *)
Definition Duration : Type := Z.
Definition Nanosecond : Duration := 1.
Definition Millisecond : Duration := 1000000.
Definition Second : Duration := 1000000000.
End time.

(** ** Constants of [github.com/gorilla/websocket] used by [worker] *)

Module websocket.
Definition TextMessage : Z := 1.
Definition BinaryMessage : Z := 2.
Definition CloseMessage : Z := 8.
Definition PingMessage : Z := 9.
Definition PongMessage : Z := 10.

Definition CloseNormalClosure : Z := 1000.
Definition CloseGoingAway : Z := 1001.
Definition CloseNoStatusReceived : Z := 1005.
End websocket.

(** ** Channels that are only closed *)

Inductive Chan : Type := Open | Closed.

Definition is_closed (c : Chan) : bool :=
  match c with Closed => true | Open => false end.

(** [close(c)]: [None] is the run-time panic "close of closed channel". *)
Definition close (c : Chan) : option Chan :=
  match c with
  | Open => Some Closed
  | Closed => None
  end.

(** The two channels [main] shares with its helper goroutines. *)
Record Signals : Type := mkSignals { shutdown : Chan; done : Chan }.

Definition initial_signals : Signals := {| shutdown := Open; done := Open |}.

(** What a helper goroutine of [main] does, in program order. *)
Inductive MainEffect : Type :=
| MSleep (d : time.Duration)
| MLogSignal
| MLogDuration
| MCloseShutdown
| MCloseDone.

(** The goroutine of lines 74-82, from the point where [<-sigChan] has
    delivered a signal: [close(shutdown)], then [close(done)] when a
    duration is configured. *)
Definition signalHandler (duration : Z) (s : Signals) : option Signals :=
  match close (shutdown s) with
  | None => None
  | Some sh =>
      if 0 <? duration then
        match close (done s) with
        | None => None
        | Some dn => Some {| shutdown := sh; done := dn |}
        end
      else Some {| shutdown := sh; done := done s |}
  end.

Definition signalHandlerEffects (duration : Z) : list MainEffect :=
  [MLogSignal; MCloseShutdown] ++ (if 0 <? duration then [MCloseDone] else []).

(** The goroutine of lines 86-91, started when [*duration > 0]: the argument
    it passes to [time.Sleep] is [time.Duration( *duration )], the flag's
    integer converted to a [Duration] as it is. *)
Definition durationSleep (duration : Z) : time.Duration := duration.

Definition durationTimerEffects (duration : Z) : list MainEffect :=
  [MSleep (durationSleep duration); MLogDuration; MCloseShutdown; MCloseDone].

(** The same goroutine after its sleep: [close(shutdown); close(done)]. *)
Definition durationTimer (s : Signals) : option Signals :=
  match close (shutdown s) with
  | None => None
  | Some sh =>
      match close (done s) with
      | None => None
      | Some dn => Some {| shutdown := sh; done := dn |}
      end
  end.

(** The period of the ramp ticker, [time.Second / time.Duration( *rate )],
    and the other delays of the program, for comparison with
    [durationSleep]. *)
Definition tickerPeriod (rate : Z) : time.Duration := time.Second ÷ rate.
Definition reconnectDelay : time.Duration := 2 * time.Second.
Definition readDeadline : time.Duration := 10 * time.Second.
Definition closeGrace : time.Duration := 500 * time.Millisecond.
Definition statsPeriod : time.Duration := 5 * time.Second.

(** ** The ramp loop of [main] (lines 99-110) *)

(** How one [select] of the ramp loop found its two channels when it
    resolved.  With both ready Go picks one of the cases at random; the
    choice is part of the resolution. *)
Inductive Ready : Type :=
| TickOnly
| ShutdownOnly
| Both (pickTick : bool).

Inductive RampCase : Type := CaseTick | CaseShutdown.

Definition selectCase (r : Ready) : RampCase :=
  match r with
  | TickOnly => CaseTick
  | ShutdownOnly => CaseShutdown
  | Both pickTick => if pickTick then CaseTick else CaseShutdown
  end.

(** Whether [shutdown] was already closed when the select resolved. *)
Definition shutdownFired (r : Ready) : bool :=
  match r with
  | TickOnly => false
  | ShutdownOnly | Both _ => true
  end.

Inductive RampExit : Type :=
| ReachedTarget      (* the loop guard became false *)
| StoppedByShutdown  (* [goto endLoop] *)
| StillRamping.      (* blocked in [select]: no resolution left *)

Record RampResult : Type := mkRamp {
  establishedConnections : Z;   (* workers spawned: [wg.Add(1); go worker] *)
  rampExit : RampExit
}.

(** The loop, run on the successive resolutions of its [select].  The
    count stays at most [concurrency], an [int], so [established + 1] does
    not wrap. *)
Fixpoint rampLoop (concurrency established : Z) (sel : list Ready) : RampResult :=
  if established <? concurrency then
    match sel with
    | [] => mkRamp established StillRamping
    | r :: rest =>
        match selectCase r with
        | CaseTick => rampLoop concurrency (established + 1) rest
        | CaseShutdown => mkRamp established StoppedByShutdown
        end
    end
  else mkRamp established ReachedTarget.

(** ** Shared counters (lines 26-31) *)

Record Counters : Type := mkCounters {
  successfulConnections : Z;
  failedConnections : Z;
  activeConnections : Z;
  totalBytesRead : Z
}.

Definition zero_counters : Counters := mkCounters 0 0 0 0.

Inductive Counter : Type := Successful | Failed | Active | BytesRead.

(** [atomic.AddInt64(&counter, delta)] on the shared record. *)
Definition atomicAdd (k : Counter) (delta : Z) (c : Counters) : Counters :=
  match k with
  | Successful =>
      mkCounters (AddInt64 (successfulConnections c) delta) (failedConnections c)
                 (activeConnections c) (totalBytesRead c)
  | Failed =>
      mkCounters (successfulConnections c) (AddInt64 (failedConnections c) delta)
                 (activeConnections c) (totalBytesRead c)
  | Active =>
      mkCounters (successfulConnections c) (failedConnections c)
                 (AddInt64 (activeConnections c) delta) (totalBytesRead c)
  | BytesRead =>
      mkCounters (successfulConnections c) (failedConnections c)
                 (activeConnections c) (AddInt64 (totalBytesRead c) delta)
  end.

(** ** The outside world of a worker *)

(** A connection handle, as returned by [Dial]. *)
Definition Conn : Type := Z.

(** The errors [ReadMessage] can return, as far as [worker] tells them
    apart: a [*websocket.CloseError] with its code, a [net.Error] with the
    answer of its [Timeout()] method, anything else. *)
Inductive ReadError : Type :=
| CloseError (code : Z)
| NetError (timeout : bool)
| OtherError.

(** The two predicates of package [websocket] that [worker] calls, as the
    package documents them.

    [websocket.IsCloseError(err, codes...)]: [err] is a close error whose
    code is one of [codes]. *)
Definition IsCloseError (err : ReadError) (codes : list Z) : bool :=
  match err with
  | CloseError code => existsb (Z.eqb code) codes
  | _ => false
  end.

(** [websocket.IsUnexpectedCloseError(err, expectedCodes...)]: [err] is a
    close error whose code is none of [expectedCodes]. *)
Definition IsUnexpectedCloseError (err : ReadError) (expectedCodes : list Z) : bool :=
  match err with
  | CloseError code => negb (existsb (Z.eqb code) expectedCodes)
  | _ => false
  end.

(** [netErr, ok := err.(net.Error); ok && netErr.Timeout()] *)
Definition isTimeout (err : ReadError) : bool :=
  match err with
  | NetError timeout => timeout
  | _ => false
  end.

Inductive ReadResult : Type :=
| ReadOk (messageType : Z) (p : list Byte.byte)
| ReadErr (err : ReadError).

(** The answers the outside world gives to one loop iteration of a worker:
    to [Dial], to [ReadMessage] and to the ping [WriteMessage] ([true] is a
    nil error).  An iteration uses the ones it asks for. *)
Record Outcome : Type := mkOutcome {
  dial : option Conn;
  read : ReadResult;
  pingOk : bool
}.

Inductive LogMsg : Type :=
| LogSkipShutdown
| LogConnectionFailed
| LogReceivedShutdown (c : Conn)
| LogConnectionClosed (c : Conn) (err : ReadError)
| LogPingFailed (c : Conn)
| LogUnhandledError (c : Conn) (err : ReadError)
| LogReceived (c : Conn) (p : list Byte.byte)
| LogPong (c : Conn).

(** What a worker does, in program order. *)
Inductive Effect : Type :=
| AtomicAdd (k : Counter) (delta : Z)
| Dial
| ReadMessage (c : Conn)
| WriteMessage (c : Conn) (messageType : Z)
| SetReadDeadline (c : Conn) (d : time.Duration)
| ConnClose (c : Conn)
| Sleep (d : time.Duration)
| Log (m : LogMsg)
| WgDone.

Definition is_log (e : Effect) : bool :=
  match e with Log _ => true | _ => false end.

Definition apply_effect (c : Counters) (e : Effect) : Counters :=
  match e with
  | AtomicAdd k delta => atomicAdd k delta c
  | _ => c
  end.

Definition apply_effects (c : Counters) (es : list Effect) : Counters :=
  fold_left apply_effect es c.

(** ** [worker] (lines 140-241) *)

(** The calls a worker has deferred. *)
Inductive Deferred : Type :=
| DWgDone                 (* line 141 *)
| DRecover                (* lines 143-147 *)
| DDecActive              (* line 186 *)
| DConnClose (c : Conn).  (* line 187 *)

Definition run_deferred (d : Deferred) : list Effect :=
  match d with
  | DWgDone => [WgDone]
  | DRecover => []
  | DDecActive => [AtomicAdd Active (-1)]
  | DConnClose c => [ConnClose c]
  end.

(** Where a worker stands between two iterations: at the top of
    [reconnectLoop], at the top of the read loop with its connection, or
    returned. *)
Inductive Phase : Type :=
| Connecting
| Connected (conn : Conn)
| Terminated.

Record Worker : Type := mkWorker {
  phase : Phase;
  reconnectAttempts : Z;
  defers : list Deferred   (* last deferred call first *)
}.

Definition maxReconnectAttempts : Z := 0.

(** A worker as [go worker(url, &wg)] starts it, its first two [defer]s
    done. *)
Definition new_worker : Worker :=
  mkWorker Connecting 0 [DRecover; DWgDone].

(** [if *verbose { log... }] *)
Definition vlog (verbose : bool) (m : LogMsg) : list Effect :=
  if verbose then [Log m] else [].

(** [return]: the deferred calls run, last deferred first. *)
Definition do_return (w : Worker) (before : list Effect) : Worker * list Effect :=
  (mkWorker Terminated (reconnectAttempts w) [],
   before ++ concat (map run_deferred (defers w))).

(** [goto reconnectLoop]: control moves to the labelled [for]; nothing
    else happens. *)
Definition goto_reconnectLoop (w : Worker) (before : list Effect) : Worker * list Effect :=
  (mkWorker Connecting (reconnectAttempts w) (defers w), before).

Definition expectedCloseCodes : list Z :=
  [websocket.CloseGoingAway; websocket.CloseNormalClosure; websocket.CloseNoStatusReceived].

(** One pass through [reconnectLoop] (lines 157-189). *)
Definition connecting_iter (verbose shut : bool) (o : Outcome) (w : Worker)
  : Worker * list Effect :=
  if shut then do_return w (vlog verbose LogSkipShutdown)
  else
    match dial o with
    | None =>
        let before := [Dial; AtomicAdd Failed 1] ++ vlog verbose LogConnectionFailed in
        if (0 <? maxReconnectAttempts) && (maxReconnectAttempts <=? reconnectAttempts w)
        then do_return w before
        else (mkWorker Connecting (wrap64 (reconnectAttempts w + 1)) (defers w),
              before ++ [Sleep reconnectDelay])
    | Some conn =>
        (mkWorker (Connected conn) (reconnectAttempts w)
                  (DConnClose conn :: DDecActive :: defers w),
         [Dial; AtomicAdd Successful 1; AtomicAdd Active 1;
          SetReadDeadline conn readDeadline])
    end.

(** One pass through the read loop (lines 191-240). *)
Definition connected_iter (verbose shut : bool) (o : Outcome) (conn : Conn) (w : Worker)
  : Worker * list Effect :=
  if shut then
    do_return w (vlog verbose (LogReceivedShutdown conn)
                 ++ [WriteMessage conn websocket.CloseMessage; Sleep closeGrace])
  else
    match read o with
    | ReadErr err =>
        if IsUnexpectedCloseError err expectedCloseCodes
           || IsCloseError err [websocket.CloseNormalClosure; websocket.CloseGoingAway]
        then
          goto_reconnectLoop w
            ([ReadMessage conn] ++ vlog verbose (LogConnectionClosed conn err))
        else if isTimeout err then
          if pingOk o then
            (w, [ReadMessage conn; WriteMessage conn websocket.PingMessage;
                 SetReadDeadline conn readDeadline])
          else
            goto_reconnectLoop w
              ([ReadMessage conn; WriteMessage conn websocket.PingMessage]
               ++ vlog verbose (LogPingFailed conn))
        else
          goto_reconnectLoop w
            ([ReadMessage conn] ++ vlog verbose (LogUnhandledError conn err))
    | ReadOk messageType p =>
        (w, [ReadMessage conn; AtomicAdd BytesRead (Z.of_nat (length p))]
            ++ (if verbose && (messageType =? websocket.TextMessage)
                then [Log (LogReceived conn p)] else [])
            ++ (if (messageType =? websocket.PongMessage) && verbose
                then [Log (LogPong conn)] else [])
            ++ [SetReadDeadline conn readDeadline])
    end.

(** One loop iteration of a worker.  [shut] is what its [select] on
    [shutdown] finds: [true] when the channel is closed. *)
Definition worker_iter (verbose shut : bool) (o : Outcome) (w : Worker)
  : Worker * list Effect :=
  match phase w with
  | Connecting => connecting_iter verbose shut o w
  | Connected conn => connected_iter verbose shut o conn w
  | Terminated => (w, [])
  end.

(** A worker alone, on the successive states of [shutdown] and outcomes of
    its iterations: its final state and everything it did. *)
Fixpoint worker (verbose : bool) (w : Worker) (ins : list (bool * Outcome))
  : Worker * list Effect :=
  match ins with
  | [] => (w, [])
  | (shut, o) :: rest =>
      let '(w1, es1) := worker_iter verbose shut o w in
      let '(w2, es2) := worker verbose w1 rest in
      (w2, es1 ++ es2)
  end.

(** ** The run: shared state and the workers spawned so far *)

Record Config : Type := mkConfig {
  concurrency : Z;   (* [-c] *)
  verbose : bool     (* [-v] *)
}.

Record Sys : Type := mkSys {
  counters : Counters;
  signal : Chan;            (* the [shutdown] channel *)
  wg : Z;                   (* the counter of the [sync.WaitGroup] *)
  workers : list Worker     (* in the order [main] started them *)
}.

Definition initial_sys : Sys := mkSys zero_counters Open 0 [].

(** What can happen next in a run. One scheduler event of a worker is one
    of its loop iterations, its atomic additions applied in program order. *)
Inductive Event : Type :=
| Spawn                          (* the ticker case: [wg.Add(1); go worker] *)
| Fire                           (* [close(shutdown)] *)
| Iter (i : nat) (o : Outcome).  (* worker [i] runs one iteration *)

Definition apply_wg (n : Z) (e : Effect) : Z :=
  match e with
  | WgDone => n - 1
  | _ => n
  end.

(** One event.  [None] is a panic of the process (a second [close] of
    [shutdown]); an event that cannot happen in the state (a spawn once the
    loop guard [establishedConnections < *concurrency] is false, an
    iteration of a worker that was never started) leaves it as it is. *)
Definition sys_step (cfg : Config) (s : Sys) (ev : Event) : option (Sys * list Effect) :=
  match ev with
  | Spawn =>
      if Z.of_nat (length (workers s)) <? concurrency cfg
      then Some (mkSys (counters s) (signal s) (wg s + 1) (workers s ++ [new_worker]), [])
      else Some (s, [])
  | Fire =>
      match close (signal s) with
      | None => None
      | Some ch => Some (mkSys (counters s) ch (wg s) (workers s), [])
      end
  | Iter i o =>
      match workers s !! i with
      | None => Some (s, [])
      | Some w =>
          let '(w', es) := worker_iter (verbose cfg) (is_closed (signal s)) o w in
          Some (mkSys (apply_effects (counters s) es) (signal s)
                      (fold_left apply_wg es (wg s)) (<[i := w']> (workers s)),
                es)
      end
  end.

Fixpoint sys_run (cfg : Config) (s : Sys) (evs : list Event) : option (Sys * list Effect) :=
  match evs with
  | [] => Some (s, [])
  | ev :: rest =>
      match sys_step cfg s ev with
      | None => None
      | Some (s1, es1) =>
          match sys_run cfg s1 rest with
          | None => None
          | Some (s2, es2) => Some (s2, es1 ++ es2)
          end
      end
  end.

(** ** Measures used in the statements *)

(** The sum of the additions a list of effects makes to one counter. *)
Definition counter_eqb (a b : Counter) : bool :=
  match a, b with
  | Successful, Successful | Failed, Failed | Active, Active | BytesRead, BytesRead => true
  | _, _ => false
  end.

Definition delta_of (k : Counter) (e : Effect) : Z :=
  match e with
  | AtomicAdd k' d => if counter_eqb k k' then d else 0
  | _ => 0
  end.

Fixpoint delta (k : Counter) (es : list Effect) : Z :=
  match es with
  | [] => 0
  | e :: rest => delta_of k e + delta k rest
  end.

Definition get (k : Counter) (c : Counters) : Z :=
  match k with
  | Successful => successfulConnections c
  | Failed => failedConnections c
  | Active => activeConnections c
  | BytesRead => totalBytesRead c
  end.

(** How many times a list of effects adds [d] to counter [k]. *)
Definition count_add (k : Counter) (d : Z) (es : list Effect) : nat :=
  length (List.filter (fun e => match e with
                           | AtomicAdd k' d' => counter_eqb k k' && (d =? d')
                           | _ => false
                           end) es).

(** The diagnostics removed from a trace. *)
Definition erase_logs (es : list Effect) : list Effect :=
  List.filter (fun e => negb (is_log e)) es.

(** The decrements of [active] a worker still has deferred. *)
Fixpoint pending (ds : list Deferred) : Z :=
  match ds with
  | [] => 0
  | DDecActive :: rest => 1 + pending rest
  | _ :: rest => pending rest
  end.

Fixpoint pending_done (ds : list Deferred) : Z :=
  match ds with
  | [] => 0
  | DWgDone :: rest => 1 + pending_done rest
  | _ :: rest => pending_done rest
  end.

Definition sumZ (f : Worker -> Z) (ws : list Worker) : Z :=
  fold_right (fun w a => f w + a) 0 ws.

Definition alive (w : Worker) : Z :=
  match phase w with
  | Terminated => 0
  | _ => 1
  end.

(** The payload bytes an event delivers, plus one: a bound on what the
    event can add to any of the monotonic counters. *)
Definition weight (ev : Event) : Z :=
  match ev with
  | Iter _ o =>
      match read o with
      | ReadOk _ p => 1 + Z.of_nat (length p)
      | ReadErr _ => 1
      end
  | _ => 0
  end.

Definition total_weight (evs : list Event) : Z :=
  fold_right (fun ev a => weight ev + a) 0 evs.

(** The three monotonic counters of [c] are at most those of [c']. *)
Definition counters_le (c c' : Counters) : Prop :=
  successfulConnections c <= successfulConnections c'
  /\ failedConnections c <= failedConnections c'
  /\ totalBytesRead c <= totalBytesRead c'.

(** A state and trace of a run, the diagnostics removed from the trace. *)
Definition without_logs (r : Sys * list Effect) : Sys * list Effect :=
  (fst r, erase_logs (snd r)).

(** The shape of a live worker's deferred calls: a [conn.Close()] and a
    decrement of [active] for each successful dial, on top of the two calls
    deferred at its start. *)
Fixpoint wf_defers (ds : list Deferred) : bool :=
  match ds with
  | [DRecover; DWgDone] => true
  | DConnClose _ :: DDecActive :: rest => wf_defers rest
  | _ => false
  end.

Definition wf_worker (w : Worker) : Prop :=
  match phase w with
  | Terminated => defers w = []
  | _ => wf_defers (defers w) = true
  end.

(** The calls of [wg.Done()] in a list of effects. *)
Fixpoint wg_count (es : list Effect) : Z :=
  match es with
  | [] => 0
  | WgDone :: rest => 1 + wg_count rest
  | _ :: rest => wg_count rest
  end.

(** What the run maintains: [active] is the number of decrements still
    deferred, the wait group counts the workers that have not returned. *)
Definition sys_inv (s : Sys) : Prop :=
  activeConnections (counters s)
  = wrap64 (sumZ (fun w => pending (defers w)) (workers s))
  /\ wg s = sumZ alive (workers s)
  /\ Forall wf_worker (workers s).

(** ** Start-up of [main] (lines 36-67) *)

(** The command-line flags (lines 18-24). *)
Module Flags.
Record t : Type := mk {
  wsUrl : String.string;
  concurrency : Z;
  rate : Z;
  duration : Z;
  verbose : bool
}.
End Flags.

Inductive FatalMsg : Type :=
| UrlRequired
| ConcurrencyNotPositive
| RateNotPositive
| InvalidUrl.

(** [time.NewTicker(d)] panics unless [d] is positive. *)
Definition NewTicker (d : time.Duration) : option time.Duration :=
  if 0 <? d then Some d else None.

Inductive Startup : Type :=
| Fatal (msg : FatalMsg)           (* [log.Fatal]: exit status 1 *)
| TickerPanic                      (* [time.NewTicker] panicked *)
| Started (period : time.Duration).

(** [main] up to the creation of the ticker.  [parsed] is what
    [url.Parse( *wsUrl )] returned: [None] for an error, otherwise the scheme
    of the URL. *)
Definition startup (f : Flags.t) (parsed : option String.string) : Startup :=
  if String.eqb (Flags.wsUrl f) ""%string then Fatal UrlRequired
  else if Flags.concurrency f <=? 0 then Fatal ConcurrencyNotPositive
  else if Flags.rate f <=? 0 then Fatal RateNotPositive
  else
    match parsed with
    | None => Fatal InvalidUrl
    | Some scheme =>
        if negb (String.eqb scheme "ws"%string) && negb (String.eqb scheme "wss"%string)
        then Fatal InvalidUrl
        else
          match NewTicker (tickerPeriod (Flags.rate f)) with
          | None => TickerPanic
          | Some period => Started period
          end
    end.

(** The flags [main] does not reject. *)
Definition accepted (f : Flags.t) (parsed : option String.string) : Prop :=
  Flags.wsUrl f <> ""%string
  /\ 0 < Flags.concurrency f
  /\ 0 < Flags.rate f
  /\ (parsed = Some "ws"%string \/ parsed = Some "wss"%string).

(** ** The helper goroutines of [main] and its wait (lines 69-92, 111-125) *)

(** The two goroutines and what they still wait for: the one of lines 74-82
    blocks on [sigChan] and handles one signal; the one of lines 86-91
    exists only when [*duration > 0] and sleeps. *)
Record Helpers : Type := mkHelpers {
  chans : Signals;
  sigWaiting : bool;
  timerSleeping : bool
}.

Definition start_helpers (duration : Z) : Helpers :=
  mkHelpers initial_signals true (0 <? duration).

Inductive Helper : Type :=
| SignalReceived     (* SIGINT or SIGTERM is delivered *)
| DurationElapsed.   (* [time.Sleep] of the timer goroutine returns *)

(** One of the two happens; [None] is a panic.  A signal after the first,
    or the end of a sleep nobody is in, finds no goroutine and changes
    nothing. *)
Definition helper_step (duration : Z) (h : Helpers) (e : Helper) : option Helpers :=
  match e with
  | SignalReceived =>
      if sigWaiting h then
        match signalHandler duration (chans h) with
        | None => None
        | Some s => Some (mkHelpers s false (timerSleeping h))
        end
      else Some h
  | DurationElapsed =>
      if timerSleeping h then
        match durationTimer (chans h) with
        | None => None
        | Some s => Some (mkHelpers s (sigWaiting h) false)
        end
      else Some h
  end.

Fixpoint helpers_run (duration : Z) (h : Helpers) (es : list Helper) : option Helpers :=
  match es with
  | [] => Some h
  | e :: rest =>
      match helper_step duration h e with
      | None => None
      | Some h1 => helpers_run duration h1 rest
      end
  end.

Definition saw_signal (es : list Helper) : bool :=
  existsb (fun e => match e with SignalReceived => true | _ => false end) es.

Definition saw_timer (es : list Helper) : bool :=
  existsb (fun e => match e with DurationElapsed => true | _ => false end) es.

(** Whether [main] gets past its wait after the ramp loop: on [done] when a
    duration is configured, on [shutdown] otherwise. *)
Definition mainWait (duration : Z) (s : Signals) : bool :=
  if 0 <? duration then is_closed (done s) else is_closed (shutdown s).

(** ** [printStats] (lines 243-260) *)

(** A status line, with the four values its [atomic.LoadInt64] calls
    returned. *)
Inductive StatusLine : Type :=
| Status (active succeeded failed bytesRead : Z).

Definition statusLine (c : Counters) : StatusLine :=
  Status (activeConnections c) (successfulConnections c)
         (failedConnections c) (totalBytesRead c).

(** The loop on the successive resolutions of its [select], each with the
    values the counters have for its loads: the lines printed, and whether
    the function has returned. *)
Fixpoint printStats (sel : list (Ready * Counters)) : list StatusLine * bool :=
  match sel with
  | [] => ([], false)
  | (r, c) :: rest =>
      match selectCase r with
      | CaseTick =>
          let '(ls, returned) := printStats rest in (statusLine c :: ls, returned)
      | CaseShutdown => ([], true)
      end
  end.

(** ** More measures *)

(** The connections a list of effects closes, in order. *)
Fixpoint closed_conns (es : list Effect) : list Conn :=
  match es with
  | [] => []
  | ConnClose c :: rest => c :: closed_conns rest
  | _ :: rest => closed_conns rest
  end.

(** The connections a stack of deferred calls will close, in order. *)
Fixpoint deferred_conns (ds : list Deferred) : list Conn :=
  match ds with
  | [] => []
  | DConnClose c :: rest => c :: deferred_conns rest
  | _ :: rest => deferred_conns rest
  end.

(** The connections a worker obtains from [Dial] on its inputs, in order. *)
Fixpoint dialed_conns (verbose : bool) (w : Worker) (ins : list (bool * Outcome))
  : list Conn :=
  match ins with
  | [] => []
  | (shut, o) :: rest =>
      match phase w, shut, dial o with
      | Connecting, false, Some c => [c]
      | _, _, _ => []
      end ++ dialed_conns verbose (fst (worker_iter verbose shut o w)) rest
  end.

(** How many times a list of effects sleeps for [d]. *)
Fixpoint count_sleep (d : time.Duration) (es : list Effect) : Z :=
  match es with
  | [] => 0
  | Sleep d' :: rest => (if d =? d' then 1 else 0) + count_sleep d rest
  | _ :: rest => count_sleep d rest
  end.

(** Whether some event of a list is an iteration of worker [i]. *)
Definition scheduled (i : nat) (evs : list Event) : bool :=
  existsb (fun ev => match ev with Iter j _ => Nat.eqb i j | _ => false end) evs.

Definition is_spawn (ev : Event) : bool :=
  match ev with Spawn => true | _ => false end.

(** * Properties *)

(** ** Wrap-around arithmetic *)

Lemma wrap64_range (z : Z) : MinInt64 <= wrap64 z <= MaxInt64.
Proof.
  unfold wrap64, MinInt64, MaxInt64.
  pose proof (Z.mod_pos_bound (z + 2 ^ 63) (2 ^ 64) ltac:(lia)). lia.
Qed.

Lemma wrap64_small (z : Z) : MinInt64 <= z <= MaxInt64 -> wrap64 z = z.
Proof.
  unfold wrap64, MinInt64, MaxInt64. intros H.
  rewrite Z.mod_small by lia. lia.
Qed.

Lemma wrap64_add_l (a b : Z) : wrap64 (wrap64 a + b) = wrap64 (a + b).
Proof.
  unfold wrap64.
  replace ((a + 2 ^ 63) mod 2 ^ 64 - 2 ^ 63 + b + 2 ^ 63)
    with ((a + 2 ^ 63) mod 2 ^ 64 + b) by lia.
  rewrite Zplus_mod_idemp_l.
  replace (a + 2 ^ 63 + b) with (a + b + 2 ^ 63) by lia. reflexivity.
Qed.

(** ** Effects and counters *)

Lemma apply_effects_app (c : Counters) (es1 es2 : list Effect) :
  apply_effects c (es1 ++ es2) = apply_effects (apply_effects c es1) es2.
Proof. unfold apply_effects. apply fold_left_app. Qed.

Lemma delta_app (k : Counter) (es1 es2 : list Effect) :
  delta k (es1 ++ es2) = delta k es1 + delta k es2.
Proof. induction es1 as [|e es1 IH]; simpl; [reflexivity | rewrite IH; lia]. Qed.

Lemma get_atomicAdd (k k' : Counter) (d : Z) (c : Counters) :
  get k (atomicAdd k' d c) = if counter_eqb k k' then AddInt64 (get k c) d else get k c.
Proof. destruct k, k'; reflexivity. Qed.

(** A counter after a list of effects is its value before plus the sum of
    the additions, wrapped once. *)
Lemma get_apply_effects (k : Counter) (es : list Effect) :
  forall (c : Counters) (x : Z),
    get k c = wrap64 x ->
    get k (apply_effects c es) = wrap64 (x + delta k es).
Proof.
  induction es as [|e es IH]; intros c x Hc; simpl.
  - rewrite Z.add_0_r. exact Hc.
  - unfold apply_effects in *. simpl.
    rewrite (IH (apply_effect c e) (x + delta_of k e)).
    + f_equal. lia.
    + destruct e; simpl; rewrite ?Z.add_0_r; try exact Hc.
      rewrite get_atomicAdd. destruct (counter_eqb k k0).
      * unfold AddInt64. rewrite Hc. apply wrap64_add_l.
      * rewrite Z.add_0_r. exact Hc.
Qed.

Lemma get_apply_effects_exact (k : Counter) (es : list Effect) (c : Counters) :
  MinInt64 <= get k c <= MaxInt64 ->
  MinInt64 <= get k c + delta k es <= MaxInt64 ->
  get k (apply_effects c es) = get k c + delta k es.
Proof.
  intros Hc Hs.
  rewrite (get_apply_effects k es c (get k c)).
  - apply wrap64_small. exact Hs.
  - symmetry. apply wrap64_small. exact Hc.
Qed.

(** ** The worker's transitions out of the read loop *)

(** A read error sends the worker back to [reconnectLoop] unless it is a
    timeout answered by a successful ping. *)
Lemma read_error_goes_back (verbose : bool) (o : Outcome) (conn : Conn) (w : Worker)
      (err : ReadError) :
  phase w = Connected conn ->
  read o = ReadErr err ->
  isTimeout err && pingOk o = false ->
  fst (worker_iter verbose false o w) = mkWorker Connecting (reconnectAttempts w) (defers w).
Proof.
  intros Hp Hr Ht. unfold worker_iter, connected_iter. rewrite Hp, Hr.
  destruct (IsUnexpectedCloseError err expectedCloseCodes
            || IsCloseError err [websocket.CloseNormalClosure; websocket.CloseGoingAway]);
    [reflexivity|].
  destruct (isTimeout err); [|reflexivity].
  simpl in Ht. rewrite Ht. reflexivity.
Qed.

(** On that way back the worker touches no counter and closes nothing. *)
Lemma read_error_effects (verbose : bool) (o : Outcome) (conn : Conn) (w : Worker)
      (err : ReadError) (k : Counter) :
  phase w = Connected conn ->
  read o = ReadErr err ->
  delta k (snd (worker_iter verbose false o w)) = 0
  /\ ~ In (ConnClose conn) (snd (worker_iter verbose false o w)).
Proof.
  intros Hp Hr. unfold worker_iter, connected_iter. rewrite Hp, Hr.
  destruct (IsUnexpectedCloseError err expectedCloseCodes
            || IsCloseError err [websocket.CloseNormalClosure; websocket.CloseGoingAway]);
    [|destruct (isTimeout err); [destruct (pingOk o)|]];
    destruct verbose; simpl; (split; [reflexivity|]);
    intros H; repeat (destruct H as [H|H]; [discriminate H|]); exact H.
Qed.

(** At the top of [reconnectLoop] with [shutdown] open, the worker dials. *)
Lemma connecting_dials (verbose : bool) (o : Outcome) (w : Worker) :
  phase w = Connecting ->
  head (snd (worker_iter verbose false o w)) = Some Dial.
Proof.
  intros Hp. unfold worker_iter, connecting_iter. rewrite Hp.
  destruct (dial o); [reflexivity|].
  unfold maxReconnectAttempts. simpl. reflexivity.
Qed.

(** C1: a heartbeat (ping) whose write fails is meant to add one to [failed]
    before the worker goes back to connecting.  Evaluated on a connected
    worker whose read times out and whose ping fails, the iteration reads,
    writes the ping and jumps to [reconnectLoop]: it performs no addition to
    [failedConnections], and after a successful redial the counter of a run
    that started at zero is still zero. *)
Theorem heartbeat_failure_not_counted :
  let w := mkWorker (Connected 7) 0 [DConnClose 7; DDecActive; DRecover; DWgDone] in
  let o := mkOutcome (Some 8) (ReadErr (NetError true)) false in
  worker_iter false false o w
  = (mkWorker Connecting 0 (defers w),
     [ReadMessage 7; WriteMessage 7 websocket.PingMessage])
  /\ (forall c : Counters,
         failedConnections (apply_effects c (snd (worker_iter false false o w)))
         = failedConnections c)
  /\ (forall verbose : bool,
         count_add Failed 1 (snd (worker_iter verbose false o w)) = 0%nat)
  /\ failedConnections
       (apply_effects zero_counters
          (snd (worker true new_worker
                  [(false, mkOutcome (Some 7) (ReadErr OtherError) true);
                   (false, o);
                   (false, mkOutcome (Some 8) (ReadErr OtherError) true)]))) = 0.
Proof.
  repeat split.
  - intros verbose. destruct verbose; reflexivity.
Qed.

(** C2: the duration timer is meant to fire after [d] seconds.  The value
    the timer goroutine passes to [time.Sleep] for [-d 3] is the duration 3,
    that is 3 nanoseconds, where the other delays of the program are
    multiples of [time.Second]; three seconds would be 3000000000. *)
Theorem duration_timer_sleeps_nanoseconds :
  durationTimerEffects 3 = [MSleep 3; MLogDuration; MCloseShutdown; MCloseDone]
  /\ durationSleep 3 = 3 * time.Nanosecond
  /\ durationSleep 3 <> 3 * time.Second
  /\ 3 * time.Second = 3000000000
  /\ reconnectDelay = 2 * time.Second
  /\ tickerPeriod 1 = time.Second.
Proof.
  repeat split. intros H. discriminate H.
Qed.

(** C3: firing the shutdown signal is meant to be idempotent.  A first
    [close(shutdown)] closes the channel; a second one, by the signal
    goroutine after the duration timer or the other way round, is [None]:
    the process panics. *)
Theorem second_fire_panics :
  let fired := mkSignals Closed Closed in
  close Open = Some Closed
  /\ close Closed = None
  /\ durationTimer initial_signals = Some fired
  /\ signalHandler 3 initial_signals = Some fired
  /\ durationTimer fired = None
  /\ signalHandler 3 fired = None
  /\ sys_run (mkConfig 1 false) initial_sys [Fire] <> None
  /\ sys_run (mkConfig 1 false) initial_sys [Fire; Fire] = None.
Proof.
  repeat split. intros H. discriminate H.
Qed.

(** C4: leaving the read loop for a reconnect is meant to decrement [active]
    and release the connection first.  Evaluated on a connected worker, each
    of the three exits (expected close, heartbeat failure, unclassified read
    error) jumps to [reconnectLoop] with the two deferred calls still
    pending: the iteration adds nothing to [active] and does not close the
    connection, and a worker that reconnects once has counted itself twice
    while its first connection is still open. *)
Theorem reconnect_keeps_active_and_handle :
  let w := mkWorker (Connected 7) 0 [DConnClose 7; DDecActive; DRecover; DWgDone] in
  let expected_close := mkOutcome (Some 8) (ReadErr (CloseError websocket.CloseNormalClosure)) true in
  let ping_failed := mkOutcome (Some 8) (ReadErr (NetError true)) false in
  let unclassified := mkOutcome (Some 8) (ReadErr OtherError) true in
  let first := mkOutcome (Some 7) (ReadErr OtherError) true in
  worker_iter false false expected_close w = (mkWorker Connecting 0 (defers w), [ReadMessage 7])
  /\ worker_iter false false ping_failed w
     = (mkWorker Connecting 0 (defers w), [ReadMessage 7; WriteMessage 7 websocket.PingMessage])
  /\ worker_iter false false unclassified w = (mkWorker Connecting 0 (defers w), [ReadMessage 7])
  /\ worker false new_worker [(false, first); (false, expected_close); (false, expected_close)]
     = (mkWorker (Connected 8) 0
          [DConnClose 8; DDecActive; DConnClose 7; DDecActive; DRecover; DWgDone],
        [Dial; AtomicAdd Successful 1; AtomicAdd Active 1; SetReadDeadline 7 readDeadline;
         ReadMessage 7;
         Dial; AtomicAdd Successful 1; AtomicAdd Active 1; SetReadDeadline 8 readDeadline])
  /\ activeConnections
       (apply_effects zero_counters
          (snd (worker false new_worker
                  [(false, first); (false, expected_close); (false, expected_close)]))) = 2.
Proof.
  repeat split; vm_compute; reflexivity.
Qed.

(** C5: [active] is meant to stay within [0, C].  With a concurrency target
    of 1, the only worker connects, sees a normal closure and connects
    again: [active] is 2. *)
Theorem active_exceeds_concurrency :
  let cfg := mkConfig 1 false in
  let first := mkOutcome (Some 7) (ReadErr (CloseError websocket.CloseNormalClosure)) true in
  let closed := mkOutcome (Some 8) (ReadErr (CloseError websocket.CloseNormalClosure)) true in
  exists s es,
    sys_run cfg initial_sys [Spawn; Iter 0 first; Iter 0 closed; Iter 0 closed] = Some (s, es)
    /\ length (workers s) = 1%nat
    /\ activeConnections (counters s) = 2
    /\ ~ (0 <= activeConnections (counters s) <= concurrency cfg).
Proof.
  eexists. eexists. split; [reflexivity|].
  split; [reflexivity|]. split; [reflexivity|].
  simpl. intros [_ H]. vm_compute in H. apply H. reflexivity.
Qed.

(** ** The ramp loop *)

Lemma rampLoop_bounds (C : Z) (sel : list Ready) :
  forall est : Z,
    est <= C ->
    est <= establishedConnections (rampLoop C est sel) <= C.
Proof.
  induction sel as [|r rest IH]; intros est Hle; simpl.
  - destruct (est <? C); simpl; lia.
  - destruct (est <? C) eqn:Hlt; [|simpl; lia].
    apply Z.ltb_lt in Hlt.
    destruct (selectCase r); [|simpl; lia].
    specialize (IH (est + 1) ltac:(lia)). lia.
Qed.

(** With as many resolutions as workers remain to spawn, the loop ends. *)
Lemma rampLoop_ends (C : Z) (sel : list Ready) :
  forall est : Z,
    C - est <= Z.of_nat (length sel) ->
    rampExit (rampLoop C est sel) <> StillRamping.
Proof.
  induction sel as [|r rest IH]; intros est Hlen; simpl in *.
  - destruct (est <? C) eqn:Hlt; [|discriminate].
    apply Z.ltb_lt in Hlt. lia.
  - destruct (est <? C) eqn:Hlt; [|discriminate].
    destruct (selectCase r); [|discriminate].
    apply IH. lia.
Qed.

(** A loop that has ended spawned all its workers, or took the shutdown
    case of a [select] that found [shutdown] closed. *)
Lemma rampLoop_exit (C : Z) (sel : list Ready) :
  forall est : Z,
    est <= C ->
    match rampExit (rampLoop C est sel) with
    | ReachedTarget => establishedConnections (rampLoop C est sel) = C
    | StoppedByShutdown => Exists (fun r => shutdownFired r = true) sel
    | StillRamping => True
    end.
Proof.
  induction sel as [|r rest IH]; intros est Hle; simpl.
  - destruct (est <? C) eqn:Hlt; simpl; [exact I|].
    apply Z.ltb_ge in Hlt. lia.
  - destruct (est <? C) eqn:Hlt; simpl.
    + apply Z.ltb_lt in Hlt.
      destruct (selectCase r) eqn:Hs.
      * specialize (IH (est + 1) ltac:(lia)).
        destruct (rampExit (rampLoop C (est + 1) rest)); try exact IH.
        apply Exists_cons_tl. exact IH.
      * simpl. apply Exists_cons_hd.
        destruct r as [| |[|]]; simpl in *; try reflexivity; discriminate Hs.
    + apply Z.ltb_ge in Hlt. lia.
Qed.

(** While every [select] takes the tick case, each resolution spawns. *)
Lemma rampLoop_ticks (C : Z) (pre : list Ready) :
  forall (est : Z) (rest : list Ready),
    Forall (fun r => selectCase r = CaseTick) pre ->
    est + Z.of_nat (length pre) <= C ->
    rampLoop C est (pre ++ rest) = rampLoop C (est + Z.of_nat (length pre)) rest.
Proof.
  induction pre as [|r pre IH]; intros est rest Hall Hlen.
  - simpl. rewrite Z.add_0_r. reflexivity.
  - inversion Hall as [|? ? Hr Hpre]; subst.
    cbn [app rampLoop]. cbn [length] in Hlen.
    replace (est <? C) with true by (symmetry; apply Z.ltb_lt; lia).
    rewrite Hr, IH by (try exact Hpre; lia).
    f_equal. cbn [length]. lia.
Qed.

(** C6: for a concurrency target [C > 0] (what [main] accepts), the ramp
    loop run on any sequence of [select] resolutions spawns at most [C]
    workers; given [C] resolutions it ends, and it ends with exactly [C]
    workers unless it took the shutdown case of a [select] that found the
    shutdown channel closed; if the channel is never found closed it spawns
    exactly [C]; and once it takes the shutdown case the workers spawned are
    those of the ticks before, whatever the channels do afterwards. *)
Theorem ramp_controller_spawns (C : Z) (sel : list Ready) :
  0 < C ->
  0 <= establishedConnections (rampLoop C 0 sel) <= C
  /\ (C <= Z.of_nat (length sel) -> rampExit (rampLoop C 0 sel) <> StillRamping)
  /\ (rampExit (rampLoop C 0 sel) <> StillRamping ->
      establishedConnections (rampLoop C 0 sel) = C
      \/ (rampExit (rampLoop C 0 sel) = StoppedByShutdown
          /\ Exists (fun r => shutdownFired r = true) sel))
  /\ (C <= Z.of_nat (length sel) ->
      Forall (fun r => shutdownFired r = false) sel ->
      rampLoop C 0 sel = mkRamp C ReachedTarget)
  /\ (forall (pre post : list Ready) (r : Ready),
         sel = pre ++ r :: post ->
         Forall (fun x => selectCase x = CaseTick) pre ->
         selectCase r = CaseShutdown ->
         Z.of_nat (length pre) < C ->
         rampLoop C 0 sel = mkRamp (Z.of_nat (length pre)) StoppedByShutdown).
Proof.
  intros HC.
  pose proof (rampLoop_exit C sel 0 ltac:(lia)) as Hexit.
  split; [apply rampLoop_bounds; lia|].
  split; [intros Hlen; apply rampLoop_ends; lia|].
  split.
  { intros Hend. destruct (rampExit (rampLoop C 0 sel)) eqn:He.
    - left. exact Hexit.
    - right. split; [reflexivity | exact Hexit].
    - contradiction Hend. reflexivity. }
  split.
  { intros Hlen Hno.
    pose proof (rampLoop_ends C sel 0 ltac:(lia)) as Hend.
    destruct (rampLoop C 0 sel) as [est ex] eqn:Hr. simpl in *.
    destruct ex.
    - subst est. reflexivity.
    - exfalso. apply Exists_exists in Hexit. destruct Hexit as [r [Hin Hf]].
      rewrite Forall_forall in Hno. rewrite (Hno r Hin) in Hf. discriminate Hf.
    - contradiction Hend. reflexivity. }
  intros pre post r -> Hpre Hr Hlen.
  rewrite rampLoop_ticks by (try exact Hpre; lia).
  rewrite Z.add_0_l. cbn [rampLoop].
  replace (Z.of_nat (length pre) <? C) with true
    by (symmetry; apply Z.ltb_lt; lia).
  rewrite Hr. reflexivity.
Qed.

Lemma ramp_controller_spawns_witness :
  0 < 2
  /\ rampLoop 2 0 [TickOnly; Both true; ShutdownOnly] = mkRamp 2 ReachedTarget
  /\ rampLoop 2 0 [TickOnly; Both false; TickOnly] = mkRamp 1 StoppedByShutdown
  /\ 0 <= establishedConnections (rampLoop 2 0 [TickOnly; Both false; TickOnly]) <= 2.
Proof.
  split; [lia|]. split; [reflexivity|]. split; [reflexivity|].
  exact (proj1 (ramp_controller_spawns 2 [TickOnly; Both false; TickOnly] ltac:(lia))).
Defined.

(** ** Expected close *)

(** C7: when [ReadMessage] fails with a close error whose code is normal
    closure, going away or no status received, the worker goes back to the
    top of [reconnectLoop] without an addition to [failed], and its next
    iteration, [shutdown] still open, dials. *)
Theorem expected_close_reconnects (verbose : bool) (o : Outcome) (conn : Conn)
        (w : Worker) (code : Z) (c : Counters) :
  phase w = Connected conn ->
  read o = ReadErr (CloseError code) ->
  code = websocket.CloseNormalClosure \/ code = websocket.CloseGoingAway
  \/ code = websocket.CloseNoStatusReceived ->
  phase (fst (worker_iter verbose false o w)) = Connecting
  /\ failedConnections (apply_effects c (snd (worker_iter verbose false o w)))
     = failedConnections c
  /\ count_add Failed 1 (snd (worker_iter verbose false o w)) = 0%nat
  /\ (forall o' : Outcome,
         head (snd (worker_iter verbose false o' (fst (worker_iter verbose false o w))))
         = Some Dial).
Proof.
  intros Hp Hr Hcode.
  assert (Hw : fst (worker_iter verbose false o w)
               = mkWorker Connecting (reconnectAttempts w) (defers w)).
  { apply (read_error_goes_back verbose o conn w (CloseError code) Hp Hr). reflexivity. }
  rewrite Hw. split; [reflexivity|].
  assert (Hes : snd (worker_iter verbose false o w)
                = [ReadMessage conn]
                  ++ vlog verbose (if code =? websocket.CloseNoStatusReceived
                                   then LogUnhandledError conn (CloseError code)
                                   else LogConnectionClosed conn (CloseError code))).
  { unfold worker_iter, connected_iter. rewrite Hp, Hr.
    destruct Hcode as [-> | [-> | ->]]; reflexivity. }
  rewrite Hes.
  split; [destruct verbose; reflexivity|].
  split; [destruct verbose; reflexivity|].
  intros o'. apply connecting_dials. reflexivity.
Qed.

Lemma expected_close_reconnects_witness :
  phase (fst (worker_iter true false
                (mkOutcome (Some 8) (ReadErr (CloseError 1005)) true)
                (mkWorker (Connected 7) 0 [DConnClose 7; DDecActive; DRecover; DWgDone])))
  = Connecting.
Proof.
  exact (proj1 (expected_close_reconnects true
                  (mkOutcome (Some 8) (ReadErr (CloseError 1005)) true) 7
                  (mkWorker (Connected 7) 0 [DConnClose 7; DDecActive; DRecover; DWgDone])
                  1005 zero_counters eq_refl eq_refl
                  (or_intror (or_intror eq_refl)))).
Defined.

(** ** The verbose flag *)

Lemma erase_logs_app (es1 es2 : list Effect) :
  erase_logs (es1 ++ es2) = erase_logs es1 ++ erase_logs es2.
Proof. unfold erase_logs. apply List.filter_app. Qed.

Lemma erase_logs_deferred (ds : list Deferred) :
  erase_logs (concat (map run_deferred ds)) = concat (map run_deferred ds).
Proof.
  induction ds as [|d ds IH]; [reflexivity|].
  cbn [map concat]. rewrite erase_logs_app, IH.
  destruct d; reflexivity.
Qed.

Lemma erase_logs_vlog (verbose : bool) (m : LogMsg) : erase_logs (vlog verbose m) = [].
Proof. destruct verbose; reflexivity. Qed.

(** An iteration with diagnostics on is the iteration with diagnostics off
    plus its log lines. *)
Lemma worker_iter_verbose (verbose shut : bool) (o : Outcome) (w : Worker) :
  fst (worker_iter verbose shut o w) = fst (worker_iter false shut o w)
  /\ erase_logs (snd (worker_iter verbose shut o w)) = snd (worker_iter false shut o w).
Proof.
  unfold worker_iter. destruct (phase w) as [|conn|]; [| |split; reflexivity].
  - unfold connecting_iter, do_return. destruct shut.
    + split; [reflexivity|]. cbn [snd].
      rewrite erase_logs_app, erase_logs_vlog, erase_logs_deferred. reflexivity.
    + destruct (dial o); [split; reflexivity|].
      unfold maxReconnectAttempts. cbn [Z.ltb Z.compare andb fst snd].
      split; [reflexivity|].
      rewrite !erase_logs_app, erase_logs_vlog. reflexivity.
  - unfold connected_iter, do_return, goto_reconnectLoop. destruct shut.
    + split; [reflexivity|]. cbn [snd].
      rewrite !erase_logs_app, erase_logs_vlog, erase_logs_deferred. reflexivity.
    + destruct (read o) as [mt p|err].
      * split; [reflexivity|]. cbn [snd].
        destruct verbose, (mt =? websocket.TextMessage), (mt =? websocket.PongMessage);
          reflexivity.
      * destruct (IsUnexpectedCloseError err expectedCloseCodes
                  || IsCloseError err [websocket.CloseNormalClosure; websocket.CloseGoingAway]);
          [|destruct (isTimeout err); [destruct (pingOk o)|]];
          (split; [reflexivity|]); cbn [snd];
          rewrite ?erase_logs_app, ?erase_logs_vlog; reflexivity.
Qed.

Lemma apply_effects_erase_logs (es : list Effect) :
  forall c : Counters, apply_effects c (erase_logs es) = apply_effects c es.
Proof.
  unfold apply_effects.
  induction es as [|e es IH]; intros c; [reflexivity|].
  destruct e; simpl; apply IH.
Qed.

Lemma apply_wg_erase_logs (es : list Effect) :
  forall n : Z, fold_left apply_wg (erase_logs es) n = fold_left apply_wg es n.
Proof.
  induction es as [|e es IH]; intros n; [reflexivity|].
  destruct e; simpl; apply IH.
Qed.

Lemma sys_step_verbose (C : Z) (s : Sys) (ev : Event) :
  sys_step (mkConfig C false) s ev
  = option_map without_logs (sys_step (mkConfig C true) s ev).
Proof.
  destruct ev as [| |i o]; simpl.
  - destruct (Z.of_nat (length (workers s)) <? C); reflexivity.
  - destruct (close (signal s)); reflexivity.
  - destruct (workers s !! i) as [w|]; [|reflexivity].
    destruct (worker_iter_verbose true (is_closed (signal s)) o w) as [Hw Hes].
    destruct (worker_iter true (is_closed (signal s)) o w) as [w1 es1].
    destruct (worker_iter false (is_closed (signal s)) o w) as [w0 es0].
    simpl in *. subst w0 es0. unfold without_logs. simpl.
    rewrite apply_effects_erase_logs, apply_wg_erase_logs. reflexivity.
Qed.

(** C9: two runs that differ only in the verbose flag and receive the same
    events and outcomes go through the same states (counters, wait group,
    shutdown channel, phase and deferred calls of every worker) and do the
    same things, log lines apart: the run without diagnostics is the run
    with diagnostics, its log lines erased.  In particular one panics
    exactly when the other does. *)
Theorem verbose_changes_diagnostics_only (C : Z) (s : Sys) (evs : list Event) :
  sys_run (mkConfig C false) s evs
  = option_map without_logs (sys_run (mkConfig C true) s evs).
Proof.
  revert s. induction evs as [|ev evs IH]; intros s; [reflexivity|].
  cbn [sys_run]. rewrite sys_step_verbose.
  destruct (sys_step (mkConfig C true) s ev) as [[s1 es1]|]; [|reflexivity].
  cbn [option_map without_logs fst snd]. rewrite IH.
  destruct (sys_run (mkConfig C true) s1 evs) as [[s2 es2]|]; [|reflexivity].
  unfold without_logs. cbn [option_map fst snd].
  rewrite erase_logs_app. reflexivity.
Qed.

(** ** Deferred calls *)

Lemma wf_defers_ind (P : list Deferred -> Prop) :
  P [DRecover; DWgDone] ->
  (forall (c : Conn) (rest : list Deferred),
      wf_defers rest = true -> P rest -> P (DConnClose c :: DDecActive :: rest)) ->
  forall ds : list Deferred, wf_defers ds = true -> P ds.
Proof.
  intros Hbase Hstep ds.
  assert (H : (wf_defers ds = true -> P ds)
              /\ (forall d, wf_defers (d :: ds) = true -> P (d :: ds))).
  { induction ds as [|a ds [IH1 IH2]].
    - split; [discriminate|]. intros d H. destruct d; discriminate H.
    - split; [apply IH2|].
      intros d H. destruct d, a; try discriminate H.
      + destruct ds; [exact Hbase | discriminate H].
      + apply Hstep; [exact H | apply IH1; exact H]. }
  apply H.
Qed.

Lemma wf_defers_done (ds : list Deferred) :
  wf_defers ds = true -> pending_done ds = 1.
Proof.
  revert ds. apply wf_defers_ind; [reflexivity|].
  intros c rest _ IH. simpl. exact IH.
Qed.

Lemma wf_defers_last (ds : list Deferred) :
  wf_defers ds = true -> exists es, concat (map run_deferred ds) = es ++ [WgDone].
Proof.
  revert ds. apply wf_defers_ind.
  - exists []. reflexivity.
  - intros c rest _ [es Hes].
    exists (ConnClose c :: AtomicAdd Active (-1) :: es).
    cbn [map concat run_deferred app]. rewrite Hes. reflexivity.
Qed.

Lemma count_add_app (k : Counter) (d : Z) (es1 es2 : list Effect) :
  count_add k d (es1 ++ es2) = (count_add k d es1 + count_add k d es2)%nat.
Proof. unfold count_add. rewrite List.filter_app, length_app. reflexivity. Qed.

Lemma wg_count_app (es1 es2 : list Effect) :
  wg_count (es1 ++ es2) = wg_count es1 + wg_count es2.
Proof.
  induction es1 as [|e es1 IH]; [reflexivity|].
  destruct e; simpl; rewrite IH; lia.
Qed.

Lemma apply_wg_count (es : list Effect) :
  forall n : Z, fold_left apply_wg es n = n - wg_count es.
Proof.
  induction es as [|e es IH]; intros n; simpl; [lia|].
  rewrite IH. destruct e; simpl; lia.
Qed.

(** What running a stack of deferred calls adds up to. *)
Lemma deferred_effects (ds : list Deferred) :
  delta Active (concat (map run_deferred ds)) = - pending ds
  /\ (forall k, k <> Active -> delta k (concat (map run_deferred ds)) = 0)
  /\ wg_count (concat (map run_deferred ds)) = pending_done ds
  /\ count_add Active 1 (concat (map run_deferred ds)) = 0%nat
  /\ Z.of_nat (count_add Active (-1) (concat (map run_deferred ds))) = pending ds.
Proof.
  induction ds as [|d ds (IH1 & IH2 & IH3 & IH4 & IH5)].
  - repeat split; reflexivity.
  - cbn [map concat].
    rewrite !delta_app, wg_count_app, !count_add_app, IH1, IH3, IH4.
    split; [destruct d; simpl; lia|].
    split; [intros k Hk; rewrite delta_app, (IH2 k Hk);
            destruct d, k; simpl; try reflexivity; contradiction Hk; reflexivity|].
    split; [destruct d; simpl; lia|].
    split; [destruct d; reflexivity|].
    destruct d; cbn [run_deferred pending]; unfold count_add at 1; simpl; lia.
Qed.

(** ** One iteration, by cases *)

(** Case analysis on the branches of [worker_iter]. *)
Ltac iter_cases :=
  unfold worker_iter, connecting_iter, connected_iter, do_return, goto_reconnectLoop,
    maxReconnectAttempts, vlog;
  cbn [Z.ltb Z.compare andb];
  repeat (cbn [fst snd defers phase];
          match goal with
          | H : phase ?w = _ |- context [phase ?w] => rewrite H
          | |- context [match phase ?w with _ => _ end] => is_var w; destruct (phase w) eqn:?
          | |- context [match dial ?o with _ => _ end] => destruct (dial o) eqn:?
          | |- context [match read ?o with _ => _ end] => destruct (read o) eqn:?
          | |- context [if ?b then _ else _] => destruct b eqn:?
          end);
  cbn [fst snd defers phase].

Lemma worker_iter_active (verbose shut : bool) (o : Outcome) (w : Worker) :
  delta Active (snd (worker_iter verbose shut o w))
  = pending (defers (fst (worker_iter verbose shut o w))) - pending (defers w)
  /\ Z.of_nat (count_add Active 1 (snd (worker_iter verbose shut o w)))
     - Z.of_nat (count_add Active (-1) (snd (worker_iter verbose shut o w)))
     = pending (defers (fst (worker_iter verbose shut o w))) - pending (defers w).
Proof.
  pose proof (deferred_effects (defers w)) as (Hd & _ & _ & Hi & Hc).
  iter_cases;
    rewrite ?delta_app, ?count_add_app, ?Hd, ?Hi, ?Nat2Z.inj_add, ?Hc;
    unfold count_add; simpl; lia.
Qed.

Lemma worker_iter_wf (verbose shut : bool) (o : Outcome) (w : Worker) :
  wf_worker w ->
  wf_worker (fst (worker_iter verbose shut o w))
  /\ wg_count (snd (worker_iter verbose shut o w))
     = alive w - alive (fst (worker_iter verbose shut o w)).
Proof.
  pose proof (deferred_effects (defers w)) as (_ & _ & Hg & _).
  unfold wf_worker, alive.
  iter_cases; intros H;
    rewrite ?wg_count_app, ?Hg, ?(wf_defers_done _ H);
    simpl; (split; [try assumption; try reflexivity | try lia]).
Qed.

(** The additions of one iteration to a monotonic counter are between zero
    and the weight of its event. *)
Lemma worker_iter_bounds (verbose shut : bool) (o : Outcome) (w : Worker)
      (i : nat) (k : Counter) :
  k <> Active ->
  0 <= delta k (snd (worker_iter verbose shut o w)) <= weight (Iter i o).
Proof.
  intros Hk.
  pose proof (deferred_effects (defers w)) as (_ & Hz & _).
  specialize (Hz k Hk). unfold weight.
  destruct k; try (contradiction Hk; reflexivity);
    iter_cases; rewrite ?delta_app, ?Hz; simpl; lia.
Qed.

(** A worker that has returned does nothing more. *)
Lemma terminated_stays (verbose shut : bool) (o : Outcome) (w : Worker) :
  phase w = Terminated -> worker_iter verbose shut o w = (w, []).
Proof. intros H. unfold worker_iter. rewrite H. reflexivity. Qed.

(** ** Sums over the workers *)

Lemma sumZ_app (f : Worker -> Z) (ws1 ws2 : list Worker) :
  sumZ f (ws1 ++ ws2) = sumZ f ws1 + sumZ f ws2.
Proof. induction ws1 as [|w ws1 IH]; simpl; [reflexivity | rewrite IH; lia]. Qed.

Lemma sumZ_insert (f : Worker -> Z) (ws : list Worker) :
  forall (i : nat) (w w' : Worker),
    ws !! i = Some w ->
    sumZ f (<[i := w']> ws) = sumZ f ws - f w + f w'.
Proof.
  induction ws as [|a ws IH]; intros i w w' Hi; [discriminate Hi|].
  destruct i as [|i]; simpl in *.
  - injection Hi as ->. lia.
  - rewrite (IH i w w' Hi). lia.
Qed.

Lemma sumZ_alive_zero (ws : list Worker) :
  sumZ alive ws = 0 -> Forall (fun w => phase w = Terminated) ws.
Proof.
  assert (Hnn : forall l, 0 <= sumZ alive l).
  { induction l as [|w l IH]; simpl; [lia|]. unfold alive at 1. destruct (phase w); lia. }
  induction ws as [|w ws IH]; simpl; intros H; [constructor|].
  pose proof (Hnn ws). unfold alive at 1 in H.
  destruct (phase w) eqn:Hp; try lia.
  constructor; [exact Hp | apply IH; lia].
Qed.

Lemma sumZ_pending_terminated (ws : list Worker) :
  Forall wf_worker ws ->
  Forall (fun w => phase w = Terminated) ws ->
  sumZ (fun w => pending (defers w)) ws = 0.
Proof.
  induction ws as [|w ws IH]; intros Hwf Ht; [reflexivity|].
  inversion Hwf as [|? ? Hw Hws]; inversion Ht as [|? ? Hp Hps]; subst.
  simpl. rewrite (IH Hws Hps).
  unfold wf_worker in Hw. rewrite Hp in Hw. rewrite Hw. reflexivity.
Qed.

(** ** The run keeps its accounts *)

Lemma sys_inv_initial : sys_inv initial_sys.
Proof. repeat split. constructor. Qed.

Lemma sys_step_inv (cfg : Config) (s s' : Sys) (ev : Event) (es : list Effect) :
  sys_inv s ->
  sys_step cfg s ev = Some (s', es) ->
  sys_inv s'.
Proof.
  intros (Ha & Hg & Hwf) Hstep.
  destruct ev as [| |i o]; simpl in Hstep.
  - destruct (Z.of_nat (length (workers s)) <? concurrency cfg);
      injection Hstep as <- <-; [|repeat split; assumption].
    unfold sys_inv. cbn [counters wg workers].
    rewrite !sumZ_app. simpl. rewrite !Z.add_0_r.
    split; [exact Ha|]. split; [change (alive new_worker) with 1; lia|].
    apply Forall_app. split; [exact Hwf|]. repeat constructor.
  - destruct (close (signal s)); [|discriminate Hstep].
    injection Hstep as <- <-. repeat split; assumption.
  - destruct (workers s !! i) as [w|] eqn:Hi;
      [|injection Hstep as <- <-; repeat split; assumption].
    pose proof (worker_iter_active (verbose cfg) (is_closed (signal s)) o w) as [Hd _].
    assert (Hw : wf_worker w).
    { apply (Forall_lookup_1 _ _ _ _ Hwf Hi). }
    pose proof (worker_iter_wf (verbose cfg) (is_closed (signal s)) o w Hw) as [Hw' Hc].
    destruct (worker_iter (verbose cfg) (is_closed (signal s)) o w) as [w' es'].
    cbn [fst snd] in *. injection Hstep as <- <-.
    unfold sys_inv. cbn [counters wg workers].
    rewrite !(sumZ_insert _ _ i w w' Hi).
    split; [|split].
    + change (activeConnections (apply_effects (counters s) es'))
        with (get Active (apply_effects (counters s) es')).
      rewrite (get_apply_effects Active es' (counters s) _ Ha).
      f_equal. lia.
    + rewrite apply_wg_count. lia.
    + apply Forall_insert; assumption.
Qed.

Lemma sys_run_inv (cfg : Config) (evs : list Event) :
  forall (s s' : Sys) (es : list Effect),
    sys_inv s ->
    sys_run cfg s evs = Some (s', es) ->
    sys_inv s'.
Proof.
  induction evs as [|ev evs IH]; intros s s' es Hinv Hrun; simpl in Hrun.
  - injection Hrun as <- <-. exact Hinv.
  - destruct (sys_step cfg s ev) as [[s1 es1]|] eqn:Hstep; [|discriminate Hrun].
    destruct (sys_run cfg s1 evs) as [[s2 es2]|] eqn:Hrest; [|discriminate Hrun].
    injection Hrun as <- <-.
    apply (IH s1 s2 es2); [|exact Hrest].
    apply (sys_step_inv cfg s s1 ev es1 Hinv Hstep).
Qed.

(** ** A worker from start to return *)

Lemma worker_after_return (verbose : bool) (ins : list (bool * Outcome)) (w : Worker) :
  phase w = Terminated -> worker verbose w ins = (w, []).
Proof.
  intros H. induction ins as [|[shut o] ins IH]; [reflexivity|].
  cbn [worker]. rewrite (terminated_stays verbose shut o w H), IH. reflexivity.
Qed.

(** The iteration in which a worker returns ends with [wg.Done()]. *)
Lemma worker_iter_returns (verbose shut : bool) (o : Outcome) (w : Worker) :
  wf_worker w ->
  phase w <> Terminated ->
  phase (fst (worker_iter verbose shut o w)) = Terminated ->
  exists es0, snd (worker_iter verbose shut o w) = es0 ++ [WgDone].
Proof.
  unfold wf_worker.
  iter_cases; intros Hwf Hlive Hret;
    try discriminate Hret; try (contradiction Hlive; reflexivity);
    destruct (wf_defers_last _ Hwf) as [es0 ->];
    rewrite ?app_assoc; eexists; reflexivity.
Qed.

Lemma worker_accounts (verbose : bool) (ins : list (bool * Outcome)) :
  forall (w w' : Worker) (es : list Effect),
    wf_worker w ->
    worker verbose w ins = (w', es) ->
    wf_worker w'
    /\ Z.of_nat (count_add Active 1 es) - Z.of_nat (count_add Active (-1) es)
       = pending (defers w') - pending (defers w)
    /\ (phase w <> Terminated -> phase w' = Terminated ->
        exists es0, es = es0 ++ [WgDone]).
Proof.
  induction ins as [|[shut o] ins IH]; intros w w' es Hwf Hrun; cbn [worker] in Hrun.
  - injection Hrun as <- <-. split; [exact Hwf|].
    split; [unfold count_add; simpl; lia|].
    intros Hlive Hret. contradiction.
  - pose proof (worker_iter_wf verbose shut o w Hwf) as [Hwf1 _].
    pose proof (worker_iter_active verbose shut o w) as [_ Hcnt].
    pose proof (worker_iter_returns verbose shut o w Hwf) as Hret1.
    destruct (worker_iter verbose shut o w) as [w1 es1]. cbn [fst snd] in *.
    destruct (worker verbose w1 ins) as [w2 es2] eqn:Hrest.
    injection Hrun as <- <-.
    destruct (IH w1 w2 es2 Hwf1 Hrest) as (Hwf2 & Hcnt2 & Hret2).
    split; [exact Hwf2|]. split.
    + rewrite !count_add_app, !Nat2Z.inj_add. lia.
    + intros Hlive Hret.
      destruct (phase w1) eqn:Hp1.
      * destruct Hret2 as [es0 ->]; [discriminate | exact Hret |].
        exists (es1 ++ es0). rewrite app_assoc. reflexivity.
      * destruct Hret2 as [es0 ->]; [discriminate | exact Hret |].
        exists (es1 ++ es0). rewrite app_assoc. reflexivity.
      * rewrite (worker_after_return verbose ins w1 Hp1) in Hrest.
        injection Hrest as <- <-. rewrite app_nil_r.
        apply Hret1; [exact Hlive | reflexivity].
Qed.

(** C10: a worker that has returned has performed as many decrements of
    [active] as increments, all of them before the [wg.Done()] that ends its
    trace; and in every state of a run in which the wait group's counter is
    zero, which is when [wg.Wait()] returns, every worker has returned and
    [active] is zero. *)
Theorem active_zero_after_wait :
  (forall (verbose : bool) (ins : list (bool * Outcome)) (w' : Worker) (es : list Effect),
      worker verbose new_worker ins = (w', es) ->
      phase w' = Terminated ->
      count_add Active 1 es = count_add Active (-1) es
      /\ exists es0, es = es0 ++ [WgDone])
  /\ (forall (cfg : Config) (evs : list Event) (s : Sys) (es : list Effect),
         sys_run cfg initial_sys evs = Some (s, es) ->
         wg s = 0 ->
         Forall (fun w => phase w = Terminated) (workers s)
         /\ activeConnections (counters s) = 0).
Proof.
  split.
  - intros verbose ins w' es Hrun Hret.
    assert (Hwf : wf_worker new_worker) by reflexivity.
    destruct (worker_accounts verbose ins new_worker w' es Hwf Hrun)
      as (Hwf' & Hcnt & Hlast).
    unfold wf_worker in Hwf'. rewrite Hret in Hwf'. rewrite Hwf' in Hcnt.
    simpl in Hcnt. split; [lia|].
    apply Hlast; [discriminate | exact Hret].
  - intros cfg evs s es Hrun Hwg.
    destruct (sys_run_inv cfg evs initial_sys s es sys_inv_initial Hrun)
      as (Ha & Hg & Hwf).
    assert (Ht : Forall (fun w => phase w = Terminated) (workers s)).
    { apply sumZ_alive_zero. lia. }
    split; [exact Ht|].
    rewrite Ha, (sumZ_pending_terminated _ Hwf Ht). reflexivity.
Qed.

Lemma active_zero_after_wait_witness :
  let cfg := mkConfig 1 true in
  let o := mkOutcome (Some 7) (ReadErr (CloseError websocket.CloseGoingAway)) true in
  exists s es,
    sys_run cfg initial_sys [Spawn; Iter 0 o; Iter 0 o; Iter 0 o; Fire; Iter 0 o] = Some (s, es)
    /\ wg s = 0
    /\ count_add Active 1 es = 2%nat
    /\ activeConnections (counters s) = 0.
Proof.
  eexists. eexists. split; [reflexivity|]. split; [reflexivity|]. split; [reflexivity|].
  apply (proj2 active_zero_after_wait (mkConfig 1 true)
           [Spawn;
            Iter 0 (mkOutcome (Some 7) (ReadErr (CloseError websocket.CloseGoingAway)) true);
            Iter 0 (mkOutcome (Some 7) (ReadErr (CloseError websocket.CloseGoingAway)) true);
            Iter 0 (mkOutcome (Some 7) (ReadErr (CloseError websocket.CloseGoingAway)) true);
            Fire;
            Iter 0 (mkOutcome (Some 7) (ReadErr (CloseError websocket.CloseGoingAway)) true)]
           _ _ eq_refl eq_refl).
Defined.

(** ** Monotonic counters *)

Lemma total_weight_nonneg (evs : list Event) : 0 <= total_weight evs.
Proof.
  induction evs as [|ev evs IH]; simpl; [lia|].
  assert (0 <= weight ev); [|lia].
  destruct ev as [| |i o]; simpl; try lia. destruct (read o); lia.
Qed.

Lemma total_weight_app (evs1 evs2 : list Event) :
  total_weight (evs1 ++ evs2) = total_weight evs1 + total_weight evs2.
Proof. induction evs1 as [|ev evs1 IH]; simpl; [reflexivity | rewrite IH; lia]. Qed.

(** One event moves a monotonic counter up, by at most its weight. *)
Lemma sys_step_monotone (cfg : Config) (s s' : Sys) (ev : Event) (es : list Effect)
      (k : Counter) :
  k <> Active ->
  sys_step cfg s ev = Some (s', es) ->
  0 <= get k (counters s) ->
  get k (counters s) + weight ev <= MaxInt64 ->
  get k (counters s) <= get k (counters s') <= get k (counters s) + weight ev.
Proof.
  intros Hk Hstep H0 Hmax.
  destruct ev as [| |i o]; cbn [sys_step] in Hstep.
  - destruct (Z.of_nat (length (workers s)) <? concurrency cfg);
      injection Hstep as <- <-; simpl; lia.
  - destruct (close (signal s)); [|discriminate Hstep].
    injection Hstep as <- <-. simpl. lia.
  - assert (Hw : 0 <= weight (Iter i o)) by (simpl; destruct (read o); lia).
    destruct (workers s !! i) as [w|]; [|injection Hstep as <- <-; lia].
    pose proof (worker_iter_bounds (verbose cfg) (is_closed (signal s)) o w i k Hk) as Hb.
    destruct (worker_iter (verbose cfg) (is_closed (signal s)) o w) as [w' es'].
    cbn [snd] in Hb. injection Hstep as <- <-. cbn [counters].
    rewrite get_apply_effects_exact; unfold MinInt64, MaxInt64 in *; lia.
Qed.

Lemma sys_run_monotone (cfg : Config) (k : Counter) (evs : list Event) :
  k <> Active ->
  forall (s s' : Sys) (es : list Effect),
    sys_run cfg s evs = Some (s', es) ->
    0 <= get k (counters s) ->
    get k (counters s) + total_weight evs <= MaxInt64 ->
    get k (counters s) <= get k (counters s') <= get k (counters s) + total_weight evs.
Proof.
  intros Hk. induction evs as [|ev evs IH]; intros s s' es Hrun H0 Hmax;
    cbn [sys_run] in Hrun.
  - injection Hrun as <- <-. simpl. lia.
  - destruct (sys_step cfg s ev) as [[s1 es1]|] eqn:Hstep; [|discriminate Hrun].
    destruct (sys_run cfg s1 evs) as [[s2 es2]|] eqn:Hrest; [|discriminate Hrun].
    injection Hrun as <- <-. cbn [total_weight fold_right] in *.
    fold (total_weight evs) in *.
    pose proof (total_weight_nonneg evs) as Hn.
    pose proof (sys_step_monotone cfg s s1 ev es1 k Hk Hstep H0 ltac:(lia)) as H1.
    pose proof (IH s1 s2 es2 Hrest ltac:(lia) ltac:(lia)) as H2.
    lia.
Qed.

(** C8: a message read in the connected phase adds the length of its
    payload to [bytesRead] (exactly, as long as the sum fits in an int64),
    resets the read deadline as the last thing the iteration does, and
    leaves the worker where it was, in the read loop of the same connection;
    and in a run from the initial state whose events weigh less than
    [MaxInt64] in all (one per iteration plus the payload bytes received),
    [successful], [failed] and [bytesRead] at any instant of the run are at
    most their values at any later instant. *)
Theorem read_success_and_monotone_counters :
  (forall (verbose : bool) (o : Outcome) (conn : Conn) (w : Worker) (messageType : Z)
          (p : list Byte.byte) (c : Counters),
      phase w = Connected conn ->
      read o = ReadOk messageType p ->
      fst (worker_iter verbose false o w) = w
      /\ apply_effects c (snd (worker_iter verbose false o w))
         = atomicAdd BytesRead (Z.of_nat (length p)) c
      /\ (0 <= totalBytesRead c ->
          totalBytesRead c + Z.of_nat (length p) <= MaxInt64 ->
          totalBytesRead (apply_effects c (snd (worker_iter verbose false o w)))
          = totalBytesRead c + Z.of_nat (length p))
      /\ last (snd (worker_iter verbose false o w))
         = Some (SetReadDeadline conn readDeadline))
  /\ (forall (cfg : Config) (evs1 evs2 : list Event) (s1 s2 : Sys) (es1 es2 : list Effect),
         total_weight (evs1 ++ evs2) <= MaxInt64 ->
         sys_run cfg initial_sys evs1 = Some (s1, es1) ->
         sys_run cfg s1 evs2 = Some (s2, es2) ->
         counters_le (counters s1) (counters s2)).
Proof.
  split.
  - intros verbose o conn w messageType p c Hp Hr.
    assert (Hes : apply_effects c (snd (worker_iter verbose false o w))
                  = atomicAdd BytesRead (Z.of_nat (length p)) c).
    { unfold worker_iter, connected_iter. rewrite Hp, Hr.
      destruct verbose, (messageType =? websocket.TextMessage),
        (messageType =? websocket.PongMessage); reflexivity. }
    split; [unfold worker_iter, connected_iter; rewrite Hp, Hr; reflexivity|].
    split; [exact Hes|]. split.
    + intros H0 Hmax. rewrite Hes. simpl. unfold AddInt64.
      apply wrap64_small. unfold MinInt64, MaxInt64 in *. lia.
    + unfold worker_iter, connected_iter. rewrite Hp, Hr.
      destruct verbose, (messageType =? websocket.TextMessage),
        (messageType =? websocket.PongMessage); reflexivity.
  - intros cfg evs1 evs2 s1 s2 es1 es2 Hw Hrun1 Hrun2.
    rewrite total_weight_app in Hw.
    pose proof (total_weight_nonneg evs1) as Hn1.
    pose proof (total_weight_nonneg evs2) as Hn2.
    assert (Hk : forall k, k <> Active ->
                           get k (counters s1) <= get k (counters s2)).
    { intros k Hk.
      pose proof (sys_run_monotone cfg k evs1 Hk initial_sys s1 es1 Hrun1) as H1.
      assert (Hz : get k (counters initial_sys) = 0) by (destruct k; reflexivity).
      rewrite Hz in H1. specialize (H1 ltac:(lia) ltac:(unfold MaxInt64 in *; lia)).
      pose proof (sys_run_monotone cfg k evs2 Hk s1 s2 es2 Hrun2
                    ltac:(lia) ltac:(lia)) as H2.
      lia. }
    unfold counters_le.
    split; [apply (Hk Successful); discriminate|].
    split; [apply (Hk Failed); discriminate | apply (Hk BytesRead); discriminate].
Qed.

Lemma read_success_and_monotone_counters_witness :
  let cfg := mkConfig 2 false in
  let hello := mkOutcome (Some 7) (ReadOk websocket.TextMessage [Byte.x68; Byte.x69; Byte.x21]) true in
  exists s1 es1 s2 es2,
    sys_run cfg initial_sys [Spawn; Iter 0 hello] = Some (s1, es1)
    /\ sys_run cfg s1 [Iter 0 hello; Spawn; Iter 1 hello; Iter 0 hello] = Some (s2, es2)
    /\ totalBytesRead (counters s1) = 0
    /\ totalBytesRead (counters s2) = 6
    /\ counters_le (counters s1) (counters s2).
Proof.
  eexists. eexists. eexists. eexists.
  split; [reflexivity|]. split; [reflexivity|].
  split; [reflexivity|]. split; [reflexivity|].
  eapply (proj2 read_success_and_monotone_counters (mkConfig 2 false)
           [Spawn;
            Iter 0 (mkOutcome (Some 7)
                      (ReadOk websocket.TextMessage [Byte.x68; Byte.x69; Byte.x21]) true)]
           [Iter 0 (mkOutcome (Some 7)
                      (ReadOk websocket.TextMessage [Byte.x68; Byte.x69; Byte.x21]) true);
            Spawn;
            Iter 1 (mkOutcome (Some 7)
                      (ReadOk websocket.TextMessage [Byte.x68; Byte.x69; Byte.x21]) true);
            Iter 0 (mkOutcome (Some 7)
                      (ReadOk websocket.TextMessage [Byte.x68; Byte.x69; Byte.x21]) true)]
        ).
  - vm_compute. discriminate.
  - reflexivity.
  - reflexivity.
Defined.

(** * Further properties of the code *)

(** ** Start-up *)

Lemma tickerPeriod_bounds (rate : Z) :
  0 < rate ->
  rate * tickerPeriod rate <= time.Second < rate * (tickerPeriod rate + 1)
  /\ (0 < tickerPeriod rate <-> rate <= time.Second).
Proof.
  intros Hr. unfold tickerPeriod, time.Second in *.
  pose proof (Z.quot_rem' 1000000000 rate) as Hq.
  pose proof (Z.rem_bound_pos 1000000000 rate ltac:(lia) Hr) as Hb.
  split; [nia|]. split; intros H; nia.
Qed.

Lemma startup_accepted (f : Flags.t) (parsed : option String.string) :
  accepted f parsed ->
  startup f parsed
  = match NewTicker (tickerPeriod (Flags.rate f)) with
    | None => TickerPanic
    | Some period => Started period
    end.
Proof.
  intros (Hu & Hc & Hr & Hp). unfold startup.
  destruct (String.eqb_spec (Flags.wsUrl f) ""%string) as [He|_]; [contradiction|].
  destruct (Z.leb_spec (Flags.concurrency f) 0); [lia|].
  destruct (Z.leb_spec (Flags.rate f) 0); [lia|].
  destruct Hp as [-> | ->]; reflexivity.
Qed.

Lemma startup_rejected (f : Flags.t) (parsed : option String.string) :
  ~ accepted f parsed -> exists msg, startup f parsed = Fatal msg.
Proof.
  intros Hn. unfold startup.
  destruct (String.eqb_spec (Flags.wsUrl f) ""%string) as [He|Hu]; [eexists; reflexivity|].
  destruct (Z.leb_spec (Flags.concurrency f) 0) as [|Hc]; [eexists; reflexivity|].
  destruct (Z.leb_spec (Flags.rate f) 0) as [|Hr]; [eexists; reflexivity|].
  destruct parsed as [scheme|]; [|eexists; reflexivity].
  destruct (String.eqb_spec scheme "ws"%string) as [->|Hws].
  - contradiction Hn. repeat split; try assumption. left. reflexivity.
  - destruct (String.eqb_spec scheme "wss"%string) as [->|Hwss].
    + contradiction Hn. repeat split; try assumption. right. reflexivity.
    + eexists. reflexivity.
Qed.

(** X1: [main] gets past its start-up and has a ticker of period [p] exactly
    when the URL is not empty and parses with scheme ws or wss, [-c] is
    positive and [-r] is between 1 and 1000000000, and then [p] is
    [time.Second / rate], a whole number of nanoseconds between 1 and
    [time.Second] with [rate * p <= time.Second < rate * (p + 1)].  With
    flags it does not reject and a rate above 1000000000 the period is zero
    and [time.NewTicker] panics.  Any value of [-d], negative ones included,
    is accepted. *)
Theorem startup_outcomes (f : Flags.t) (parsed : option String.string) :
  (forall p : time.Duration,
      startup f parsed = Started p
      <-> accepted f parsed /\ Flags.rate f <= time.Second
          /\ p = time.Second ÷ Flags.rate f)
  /\ (startup f parsed = TickerPanic
      <-> accepted f parsed /\ time.Second < Flags.rate f)
  /\ (forall p : time.Duration,
         startup f parsed = Started p ->
         1 <= p <= time.Second
         /\ Flags.rate f * p <= time.Second < Flags.rate f * (p + 1))
  /\ (forall d : Z,
         startup (Flags.mk (Flags.wsUrl f) (Flags.concurrency f) (Flags.rate f) d
                           (Flags.verbose f)) parsed
         = startup f parsed).
Proof.
  assert (Hcases : (accepted f parsed
                    /\ startup f parsed
                       = match NewTicker (tickerPeriod (Flags.rate f)) with
                         | None => TickerPanic
                         | Some period => Started period
                         end)
                   \/ (~ accepted f parsed /\ exists msg, startup f parsed = Fatal msg)).
  { destruct (String.eqb_spec (Flags.wsUrl f) ""%string) as [He|Hu].
    { right. assert (Hn : ~ accepted f parsed) by (intros (H & _); contradiction).
      split; [exact Hn | apply startup_rejected; exact Hn]. }
    destruct (Z.leb_spec (Flags.concurrency f) 0) as [Hc|Hc].
    { right. assert (Hn : ~ accepted f parsed) by (intros (_ & H & _); lia).
      split; [exact Hn | apply startup_rejected; exact Hn]. }
    destruct (Z.leb_spec (Flags.rate f) 0) as [Hr|Hr].
    { right. assert (Hn : ~ accepted f parsed) by (intros (_ & _ & H & _); lia).
      split; [exact Hn | apply startup_rejected; exact Hn]. }
    destruct parsed as [scheme|].
    2:{ right. assert (Hn : ~ accepted f None)
          by (intros (_ & _ & _ & [H|H]); discriminate H).
        split; [exact Hn | apply startup_rejected; exact Hn]. }
    destruct (String.eqb_spec scheme "ws"%string) as [->|Hws].
    { left. assert (Ha : accepted f (Some "ws"%string))
        by (repeat split; try assumption; left; reflexivity).
      split; [exact Ha | apply startup_accepted; exact Ha]. }
    destruct (String.eqb_spec scheme "wss"%string) as [->|Hwss].
    { left. assert (Ha : accepted f (Some "wss"%string))
        by (repeat split; try assumption; right; reflexivity).
      split; [exact Ha | apply startup_accepted; exact Ha]. }
    right. assert (Hn : ~ accepted f (Some scheme)).
    { intros (_ & _ & _ & [H|H]); injection H as ->; contradiction. }
    split; [exact Hn | apply startup_rejected; exact Hn]. }
  assert (Hstarted : forall p, startup f parsed = Started p
                               <-> accepted f parsed /\ Flags.rate f <= time.Second
                                   /\ p = time.Second ÷ Flags.rate f).
  { intros p. destruct Hcases as [[Ha Hs] | [Hn [msg Hs]]]; rewrite Hs.
    - destruct Ha as (Hu & Hc & Hr & Hp).
      pose proof (tickerPeriod_bounds (Flags.rate f) Hr) as [_ Hpos].
      unfold NewTicker. destruct (Z.ltb_spec 0 (tickerPeriod (Flags.rate f))) as [Hlt|Hge].
      + split.
        * intros H. injection H as <-. repeat split; try assumption. apply Hpos. exact Hlt.
        * intros (_ & _ & ->). reflexivity.
      + split; [discriminate|]. intros (_ & Hle & _). apply Hpos in Hle. lia.
    - split; [discriminate|]. intros (Ha & _). contradiction. }
  split; [exact Hstarted|]. split.
  { destruct Hcases as [[Ha Hs] | [Hn [msg Hs]]]; rewrite Hs.
    - pose proof Ha as (Hu & Hc & Hr & Hp).
      pose proof (tickerPeriod_bounds (Flags.rate f) Hr) as [_ Hpos].
      unfold NewTicker. destruct (Z.ltb_spec 0 (tickerPeriod (Flags.rate f))) as [Hlt|Hge].
      + split; [discriminate|]. intros (_ & Hgt). apply Hpos in Hlt. lia.
      + split; [|reflexivity]. intros _. split; [exact Ha|].
        destruct (Z.le_gt_cases (Flags.rate f) time.Second) as [Hle|Hgt]; [|lia].
        apply Hpos in Hle. lia.
    - split; [discriminate|]. intros (Ha & _). contradiction. }
  split.
  { intros p Hs. apply Hstarted in Hs. destruct Hs as ((_ & _ & Hr & _) & Hle & ->).
    pose proof (tickerPeriod_bounds (Flags.rate f) Hr) as [Hb Hpos].
    apply Hpos in Hle. unfold tickerPeriod in *. split; [|exact Hb].
    split; [lia|]. nia. }
  intros d. reflexivity.
Qed.

(** ** The helper goroutines *)

(** After the signal goroutine has run, only the timer can still act. *)
Lemma helpers_after_signal (duration : Z) (es : list Helper) :
  let h := mkHelpers (mkSignals Closed (if 0 <? duration then Closed else Open))
                     false (0 <? duration) in
  helpers_run duration h es
  = if (0 <? duration) && saw_timer es then None else Some h.
Proof.
  induction es as [|e es IH]; cbn zeta in *.
  - rewrite andb_false_r. reflexivity.
  - destruct e; cbn [helpers_run helper_step sigWaiting timerSleeping chans].
    + rewrite IH. reflexivity.
    + destruct (0 <? duration); [reflexivity|]. rewrite IH. reflexivity.
Qed.

(** After the timer goroutine has run, only the signal goroutine can. *)
Lemma helpers_after_timer (duration : Z) (es : list Helper) :
  let h := mkHelpers (mkSignals Closed Closed) true false in
  helpers_run duration h es = if saw_signal es then None else Some h.
Proof.
  induction es as [|e es IH]; cbn zeta in *; [reflexivity|].
  destruct e; cbn [helpers_run helper_step sigWaiting timerSleeping chans].
  - reflexivity.
  - rewrite IH. reflexivity.
Qed.

Lemma helpers_from_start (duration : Z) (es : list Helper) :
  helpers_run duration (start_helpers duration) es
  = match saw_signal es, (0 <? duration) && saw_timer es with
    | true, true => None
    | true, false =>
        Some (mkHelpers (mkSignals Closed (if 0 <? duration then Closed else Open))
                        false (0 <? duration))
    | false, true => Some (mkHelpers (mkSignals Closed Closed) true false)
    | false, false => Some (start_helpers duration)
    end.
Proof.
  unfold start_helpers.
  induction es as [|e es IH].
  - simpl. rewrite andb_false_r. reflexivity.
  - destruct e; cbn [helpers_run helper_step sigWaiting timerSleeping chans
                     saw_signal saw_timer existsb orb].
    + unfold signalHandler, initial_signals. cbn [shutdown done close].
      destruct (0 <? duration) eqn:Hd.
      * pose proof (helpers_after_signal duration es) as H. cbn zeta in H.
        rewrite Hd in H. rewrite H. cbn [andb]. fold (saw_timer es).
        destruct (saw_timer es); reflexivity.
      * pose proof (helpers_after_signal duration es) as H. cbn zeta in H.
        rewrite Hd in H. rewrite H. reflexivity.
    + destruct (0 <? duration) eqn:Hd.
      * cbn [durationTimer initial_signals shutdown done close andb].
        rewrite (helpers_after_timer duration es). fold (saw_signal es).
        destruct (saw_signal es); reflexivity.
      * exact IH.
Qed.

Lemma saw_signal_In (es : list Helper) : saw_signal es = true <-> In SignalReceived es.
Proof.
  unfold saw_signal. rewrite existsb_exists. split.
  - intros [[|] [Hin H]]; [exact Hin | discriminate H].
  - intros H. exists SignalReceived. split; [exact H | reflexivity].
Qed.

Lemma saw_timer_In (es : list Helper) : saw_timer es = true <-> In DurationElapsed es.
Proof.
  unfold saw_timer. rewrite existsb_exists. split.
  - intros [[|] [Hin H]]; [discriminate H | exact Hin].
  - intros H. exists DurationElapsed. split; [exact H | reflexivity].
Qed.

(** X2: whatever signals arrive and whenever the timer's sleep ends, the
    process panics exactly when a duration is configured and both a signal
    and the end of the sleep occur; otherwise [shutdown] is closed exactly
    when a signal has arrived or the configured sleep has ended, and
    [main] gets past its wait after the ramp loop exactly when [shutdown]
    is closed. *)
Theorem helpers_outcomes (duration : Z) (es : list Helper) :
  (helpers_run duration (start_helpers duration) es = None
   <-> 0 < duration /\ In SignalReceived es /\ In DurationElapsed es)
  /\ (forall h : Helpers,
         helpers_run duration (start_helpers duration) es = Some h ->
         mainWait duration (chans h) = is_closed (shutdown (chans h))
         /\ (is_closed (shutdown (chans h)) = true
             <-> In SignalReceived es \/ (0 < duration /\ In DurationElapsed es))).
Proof.
  pose proof (saw_signal_In es) as HS.
  pose proof (saw_timer_In es) as HT.
  pose proof (Z.ltb_lt 0 duration) as HD.
  rewrite helpers_from_start. unfold mainWait, start_helpers.
  destruct (saw_signal es), (0 <? duration), (saw_timer es); cbn [andb];
    (split;
     [ intuition congruence
     | intros h Hh; try discriminate Hh; injection Hh as <-;
       cbn [chans shutdown done is_closed initial_signals]; intuition congruence ]).
Qed.

(** ** The stats reporter *)

(** X3: [printStats] prints one status line, with the values loaded then,
    for each [select] that takes the tick case before the first one that
    takes the shutdown case, and returns there without printing anything
    more; while every [select] takes the tick case it does not return; and
    it returns only if some [select] found [shutdown] closed. *)
Theorem printStats_lines (sel : list (Ready * Counters)) :
  (forall (pre post : list (Ready * Counters)) (r : Ready) (c : Counters),
      sel = pre ++ (r, c) :: post ->
      Forall (fun x => selectCase (fst x) = CaseTick) pre ->
      selectCase r = CaseShutdown ->
      printStats sel = (map (fun x => statusLine (snd x)) pre, true))
  /\ (Forall (fun x => selectCase (fst x) = CaseTick) sel ->
      printStats sel = (map (fun x => statusLine (snd x)) sel, false))
  /\ (snd (printStats sel) = true ->
      Exists (fun x => shutdownFired (fst x) = true) sel).
Proof.
  split; [|split].
  - intros pre post r c -> Hpre Hr.
    induction Hpre as [|[r0 c0] pre Hr0 Hpre IH]; cbn [app printStats map].
    + rewrite Hr. reflexivity.
    + cbn [fst] in Hr0. rewrite Hr0, IH. reflexivity.
  - intros Hall.
    induction Hall as [|[r0 c0] rest Hr0 Hall IH]; cbn [printStats map]; [reflexivity|].
    cbn [fst] in Hr0. rewrite Hr0, IH. reflexivity.
  - induction sel as [|[r c] rest IH]; cbn [printStats]; [discriminate|].
    destruct (selectCase r) eqn:Hr.
    + destruct (printStats rest) as [ls b]. cbn [snd] in *.
      intros Hb. apply Exists_cons_tl. apply IH. exact Hb.
    + intros _. apply Exists_cons_hd. cbn [fst].
      destruct r as [| |[|]]; simpl in *; try reflexivity; discriminate Hr.
Qed.

(** ** When a worker returns *)

Lemma worker_cons (verbose shut : bool) (o : Outcome) (w : Worker)
      (rest : list (bool * Outcome)) :
  worker verbose w ((shut, o) :: rest)
  = (fst (worker verbose (fst (worker_iter verbose shut o w)) rest),
     snd (worker_iter verbose shut o w)
     ++ snd (worker verbose (fst (worker_iter verbose shut o w)) rest)).
Proof.
  cbn [worker]. destruct (worker_iter verbose shut o w) as [w1 es1]. cbn [fst snd].
  destruct (worker verbose w1 rest) as [w2 es2]. reflexivity.
Qed.

(** A live worker returns in an iteration exactly when that iteration finds
    [shutdown] closed. *)
Lemma worker_iter_returns_iff (verbose shut : bool) (o : Outcome) (w : Worker) :
  phase w <> Terminated ->
  (phase (fst (worker_iter verbose shut o w)) = Terminated <-> shut = true).
Proof.
  iter_cases; intros Hlive; split; intros H;
    try reflexivity; try discriminate H; try congruence.
Qed.



(** ** A target that refuses every dial *)

(** X5: while [shutdown] is open and every [Dial] fails, a worker at the top
    of [reconnectLoop] stays there with its deferred calls untouched; its
    iterations add one each to [failed] and nothing to the other counters,
    and each sleeps [reconnectDelay] once. *)
Theorem dial_failures_only_count (verbose : bool) (ins : list (bool * Outcome)) (w : Worker) :
  phase w = Connecting ->
  Forall (fun x => fst x = false /\ dial (snd x) = None) ins ->
  phase (fst (worker verbose w ins)) = Connecting
  /\ defers (fst (worker verbose w ins)) = defers w
  /\ delta Failed (snd (worker verbose w ins)) = Z.of_nat (length ins)
  /\ delta Successful (snd (worker verbose w ins)) = 0
  /\ delta Active (snd (worker verbose w ins)) = 0
  /\ delta BytesRead (snd (worker verbose w ins)) = 0
  /\ count_sleep reconnectDelay (snd (worker verbose w ins)) = Z.of_nat (length ins).
Proof.
  intros Hp Hall. revert w Hp.
  induction Hall as [|[shut o] rest [Hs Hd] Hall IH]; intros w Hp.
  - cbn [worker fst snd]. repeat split; try reflexivity. exact Hp.
  - cbn [fst snd] in Hs, Hd. subst shut. rewrite worker_cons. cbn [fst snd].
    assert (Hit : worker_iter verbose false o w
                  = (mkWorker Connecting (wrap64 (reconnectAttempts w + 1)) (defers w),
                     [Dial; AtomicAdd Failed 1] ++ vlog verbose LogConnectionFailed
                     ++ [Sleep reconnectDelay])).
    { unfold worker_iter, connecting_iter. rewrite Hp, Hd. unfold maxReconnectAttempts.
      cbn [Z.ltb Z.compare andb]. rewrite <- app_assoc. reflexivity. }
    rewrite Hit. cbn [fst snd].
    destruct (IH (mkWorker Connecting (wrap64 (reconnectAttempts w + 1)) (defers w)) eq_refl)
      as (H1 & H2 & H3 & H4 & H5 & H6 & H7).
    assert (Hcs : forall es1 es2, count_sleep reconnectDelay (es1 ++ es2)
                                  = count_sleep reconnectDelay es1
                                    + count_sleep reconnectDelay es2).
    { induction es1 as [|e es1 IHes]; intros es2; [reflexivity|].
      destruct e; cbn [app count_sleep]; rewrite IHes; lia. }
    split; [exact H1|]. split; [exact H2|].
    rewrite !delta_app, Hcs, H3, H4, H5, H6, H7.
    cbn [length]. destruct verbose; simpl; repeat split; lia.
Qed.

Lemma dial_failures_only_count_witness :
  delta Failed
    (snd (worker true new_worker
            [(false, mkOutcome None (ReadErr OtherError) true);
             (false, mkOutcome None (ReadErr OtherError) true);
             (false, mkOutcome None (ReadErr OtherError) true)])) = 3.
Proof.
  apply (dial_failures_only_count true
           [(false, mkOutcome None (ReadErr OtherError) true);
            (false, mkOutcome None (ReadErr OtherError) true);
            (false, mkOutcome None (ReadErr OtherError) true)]
           new_worker eq_refl).
  repeat constructor.
Defined.

(** ** A connection that stays silent *)



(** ** Connections are closed when the worker returns *)

Lemma closed_conns_app (es1 es2 : list Effect) :
  closed_conns (es1 ++ es2) = closed_conns es1 ++ closed_conns es2.
Proof.
  induction es1 as [|e es1 IH]; [reflexivity|].
  destruct e; cbn [app closed_conns]; rewrite IH; reflexivity.
Qed.

Lemma closed_conns_deferred (ds : list Deferred) :
  closed_conns (concat (map run_deferred ds)) = deferred_conns ds.
Proof.
  induction ds as [|d ds IH]; [reflexivity|].
  cbn [map concat]. rewrite closed_conns_app, IH. destruct d; reflexivity.
Qed.

(** One iteration: a worker that stays alive closes nothing and defers the
    close of the connection it has just dialed, if any; a worker that
    returns closes what it had deferred. *)
Lemma worker_iter_conns (verbose shut : bool) (o : Outcome) (w : Worker) :
  phase w <> Terminated ->
  let dialed := match phase w, shut, dial o with
                | Connecting, false, Some c => [c]
                | _, _, _ => []
                end in
  match phase (fst (worker_iter verbose shut o w)) with
  | Terminated =>
      dialed = []
      /\ closed_conns (snd (worker_iter verbose shut o w)) = deferred_conns (defers w)
  | _ =>
      closed_conns (snd (worker_iter verbose shut o w)) = []
      /\ deferred_conns (defers (fst (worker_iter verbose shut o w)))
         = dialed ++ deferred_conns (defers w)
  end.
Proof.
  pose proof (closed_conns_deferred (defers w)) as Hd.
  cbn zeta. iter_cases; intros Hlive; try (contradiction Hlive; reflexivity);
    rewrite ?closed_conns_app, ?Hd; split; reflexivity.
Qed.

Lemma dialed_conns_terminated (verbose : bool) (ins : list (bool * Outcome)) (w : Worker) :
  phase w = Terminated -> dialed_conns verbose w ins = [].
Proof.
  intros Hp. induction ins as [|[shut o] rest IH]; [reflexivity|].
  cbn [dialed_conns]. rewrite (terminated_stays verbose shut o w Hp), Hp.
  cbn [fst]. exact IH.
Qed.

Lemma worker_conns (verbose : bool) (ins : list (bool * Outcome)) :
  forall w : Worker,
    phase w <> Terminated ->
    match phase (fst (worker verbose w ins)) with
    | Terminated =>
        closed_conns (snd (worker verbose w ins))
        = rev (dialed_conns verbose w ins) ++ deferred_conns (defers w)
    | _ =>
        closed_conns (snd (worker verbose w ins)) = []
        /\ deferred_conns (defers (fst (worker verbose w ins)))
           = rev (dialed_conns verbose w ins) ++ deferred_conns (defers w)
    end.
Proof.
  induction ins as [|[shut o] rest IH]; intros w Hlive.
  - cbn [worker fst snd dialed_conns rev app closed_conns].
    destruct (phase w); [split; reflexivity | split; reflexivity | contradiction].
  - rewrite worker_cons. cbn [fst snd dialed_conns].
    pose proof (worker_iter_conns verbose shut o w Hlive) as Hit. cbn zeta in Hit.
    set (d0 := match phase w with
               | Connecting => match shut with
                               | true => []
                               | false => match dial o with Some c => [c] | None => [] end
                               end
               | _ => []
               end) in *.
    assert (Hd0 : rev d0 = d0).
    { subst d0. destruct (phase w), shut, (dial o); reflexivity. }
    rewrite rev_app_distr, Hd0, closed_conns_app.
    destruct (phase (fst (worker_iter verbose shut o w))) eqn:Hp1.
    + destruct Hit as [Hc1 Hdef1].
      specialize (IH (fst (worker_iter verbose shut o w)) ltac:(rewrite Hp1; discriminate)).
      rewrite Hc1, Hdef1 in *. rewrite <- !app_assoc. exact IH.
    + destruct Hit as [Hc1 Hdef1].
      specialize (IH (fst (worker_iter verbose shut o w)) ltac:(rewrite Hp1; discriminate)).
      rewrite Hc1, Hdef1 in *. rewrite <- !app_assoc. exact IH.
    + destruct Hit as [Hd Hc1].
      rewrite (worker_after_return verbose rest _ Hp1),
        (dialed_conns_terminated verbose rest _ Hp1).
      cbn [fst snd]. rewrite Hp1, Hc1, Hd, app_nil_r. reflexivity.
Qed.

(** X7: a worker closes no connection while it runs: the trace of a worker
    that has not returned contains no [Close], and its deferred calls hold
    every connection it has dialed, the last one first.  When it returns it
    closes every connection it has dialed, each once, the last one first. *)
Theorem connections_closed_at_return (verbose : bool) (ins : list (bool * Outcome)) :
  (phase (fst (worker verbose new_worker ins)) <> Terminated ->
   closed_conns (snd (worker verbose new_worker ins)) = []
   /\ deferred_conns (defers (fst (worker verbose new_worker ins)))
      = rev (dialed_conns verbose new_worker ins))
  /\ (phase (fst (worker verbose new_worker ins)) = Terminated ->
      closed_conns (snd (worker verbose new_worker ins))
      = rev (dialed_conns verbose new_worker ins)).
Proof.
  pose proof (worker_conns verbose ins new_worker ltac:(discriminate)) as H.
  cbn [new_worker defers deferred_conns] in H. rewrite app_nil_r in H.
  destruct (phase (fst (worker verbose new_worker ins))).
  - split; [intros _; exact H | discriminate].
  - split; [intros _; exact H | discriminate].
  - split; [intros Hn; contradiction Hn; reflexivity | intros _; exact H].
Qed.

Lemma connections_closed_at_return_witness :
  closed_conns
    (snd (worker false new_worker
            [(false, mkOutcome (Some 7) (ReadErr OtherError) true);
             (false, mkOutcome (Some 8) (ReadErr OtherError) true);
             (false, mkOutcome (Some 8) (ReadErr OtherError) true);
             (true, mkOutcome None (ReadErr OtherError) true)]))
  = [8; 7].
Proof.
  rewrite (proj2 (connections_closed_at_return false
                    [(false, mkOutcome (Some 7) (ReadErr OtherError) true);
                     (false, mkOutcome (Some 8) (ReadErr OtherError) true);
                     (false, mkOutcome (Some 8) (ReadErr OtherError) true);
                     (true, mkOutcome None (ReadErr OtherError) true)]) eq_refl).
  reflexivity.
Defined.

(** ** Workers, wait group and counters of a run *)

Lemma sumZ_alive_bounds (ws : list Worker) :
  0 <= sumZ alive ws <= Z.of_nat (length ws).
Proof.
  induction ws as [|w ws IH]; cbn [sumZ fold_right length]; [lia|].
  fold (sumZ alive ws). unfold alive at 1 3. destruct (phase w); lia.
Qed.

Lemma sys_step_workers (cfg : Config) (s s' : Sys) (ev : Event) (es : list Effect) :
  sys_step cfg s ev = Some (s', es) ->
  (length (workers s) <= length (workers s'))%nat
  /\ (Z.of_nat (length (workers s)) <= concurrency cfg ->
      Z.of_nat (length (workers s')) <= concurrency cfg)
  /\ (is_spawn ev = false -> length (workers s') = length (workers s)).
Proof.
  intros Hstep. destruct ev as [| |i o]; cbn [sys_step] in Hstep.
  - destruct (Z.ltb_spec (Z.of_nat (length (workers s))) (concurrency cfg));
      injection Hstep as <- <-; cbn [workers]; rewrite ?length_app; cbn [length];
      repeat split; try discriminate; lia.
  - destruct (close (signal s)); [|discriminate Hstep].
    injection Hstep as <- <-. cbn [workers]. repeat split; lia.
  - destruct (workers s !! i) as [w|]; [|injection Hstep as <- <-; repeat split; lia].
    destruct (worker_iter (verbose cfg) (is_closed (signal s)) o w) as [w' es'].
    injection Hstep as <- <-. cbn [workers]. rewrite length_insert. repeat split; lia.
Qed.

Lemma sys_run_workers (cfg : Config) (evs : list Event) :
  forall (s s' : Sys) (es : list Effect),
    sys_run cfg s evs = Some (s', es) ->
    (length (workers s) <= length (workers s'))%nat
    /\ (Z.of_nat (length (workers s)) <= concurrency cfg ->
        Z.of_nat (length (workers s')) <= concurrency cfg)
    /\ (forallb (fun ev => negb (is_spawn ev)) evs = true ->
        length (workers s') = length (workers s)).
Proof.
  induction evs as [|ev evs IH]; intros s s' es Hrun; cbn [sys_run] in Hrun.
  - injection Hrun as <- <-. repeat split; lia.
  - destruct (sys_step cfg s ev) as [[s1 es1]|] eqn:Hstep; [|discriminate Hrun].
    destruct (sys_run cfg s1 evs) as [[s2 es2]|] eqn:Hrest; [|discriminate Hrun].
    injection Hrun as <- <-.
    destruct (sys_step_workers cfg s s1 ev es1 Hstep) as (H1 & H2 & H3).
    destruct (IH s1 s2 es2 Hrest) as (H4 & H5 & H6).
    split; [lia|]. split; [auto|].
    cbn [forallb]. intros Hf. apply andb_true_iff in Hf. destruct Hf as [Hf1 Hf2].
    rewrite (H6 Hf2). apply H3. destruct (is_spawn ev); [discriminate Hf1 | reflexivity].
Qed.

(** X8: in every state of a run with a concurrency target [C >= 0], at most
    [C] workers have been started, and the counter of the wait group is the
    number of workers that have not returned: it is never negative (a
    negative counter would panic) and never above the number of workers. *)
Theorem workers_and_wait_group (cfg : Config) (evs : list Event) (s : Sys)
        (es : list Effect) :
  0 <= concurrency cfg ->
  sys_run cfg initial_sys evs = Some (s, es) ->
  Z.of_nat (length (workers s)) <= concurrency cfg
  /\ wg s = sumZ alive (workers s)
  /\ 0 <= wg s <= Z.of_nat (length (workers s)).
Proof.
  intros HC Hrun.
  destruct (sys_run_workers cfg evs initial_sys s es Hrun) as (_ & Hle & _).
  destruct (sys_run_inv cfg evs initial_sys s es sys_inv_initial Hrun) as (_ & Hg & _).
  split; [apply Hle; simpl; lia|]. split; [exact Hg|].
  rewrite Hg. apply sumZ_alive_bounds.
Qed.

Lemma workers_and_wait_group_witness :
  exists s es,
    sys_run (mkConfig 1 false) initial_sys
      [Spawn; Spawn; Iter 0 (mkOutcome (Some 7) (ReadErr OtherError) true); Fire;
       Iter 0 (mkOutcome None (ReadErr OtherError) true);
       Iter 1 (mkOutcome None (ReadErr OtherError) true)] = Some (s, es)
    /\ length (workers s) = 1%nat
    /\ 0 <= wg s <= Z.of_nat (length (workers s)).
Proof.
  eexists. eexists. split; [reflexivity|]. split; [reflexivity|].
  eapply (workers_and_wait_group (mkConfig 1 false)
            [Spawn; Spawn; Iter 0 (mkOutcome (Some 7) (ReadErr OtherError) true); Fire;
             Iter 0 (mkOutcome None (ReadErr OtherError) true);
             Iter 1 (mkOutcome None (ReadErr OtherError) true)]).
  - simpl. lia.
  - reflexivity.
Defined.

Lemma pending_nonneg (ds : list Deferred) : 0 <= pending ds.
Proof. induction ds as [|d ds IH]; simpl; [lia|]. destruct d; lia. Qed.

Lemma sumZ_pending_nonneg (ws : list Worker) :
  0 <= sumZ (fun w => pending (defers w)) ws.
Proof.
  unfold sumZ. induction ws as [|w ws IH]; cbn [fold_right]; [lia|].
  pose proof (pending_nonneg (defers w)). lia.
Qed.

(** In one iteration the additions to [successful] exceed those to [active]
    by the number of decrements of [active]. *)
Lemma worker_iter_successful (verbose shut : bool) (o : Outcome) (w : Worker) :
  delta Successful (snd (worker_iter verbose shut o w))
  - delta Active (snd (worker_iter verbose shut o w))
  = Z.of_nat (count_add Active (-1) (snd (worker_iter verbose shut o w))).
Proof.
  pose proof (deferred_effects (defers w)) as (Hd & Hz & _ & _ & Hc).
  specialize (Hz Successful ltac:(discriminate)).
  iter_cases;
    rewrite ?delta_app, ?count_add_app, ?Hd, ?Hz, ?Nat2Z.inj_add, ?Hc;
    unfold count_add; simpl; lia.
Qed.

Lemma count_add_nil (k : Counter) (d : Z) : count_add k d [] = 0%nat.
Proof. reflexivity. Qed.

(** The trace of a run accounts for its counters. *)
Lemma sys_run_trace (cfg : Config) (evs : list Event) :
  forall (s s' : Sys) (es : list Effect),
    sys_run cfg s evs = Some (s', es) ->
    counters s' = apply_effects (counters s) es
    /\ delta Active es
       = sumZ (fun w => pending (defers w)) (workers s')
         - sumZ (fun w => pending (defers w)) (workers s)
    /\ delta Successful es - delta Active es = Z.of_nat (count_add Active (-1) es)
    /\ 0 <= delta Successful es <= total_weight evs.
Proof.
  induction evs as [|ev evs IH]; intros s s' es Hrun; cbn [sys_run] in Hrun.
  - injection Hrun as <- <-. cbn [delta total_weight fold_right].
    rewrite count_add_nil. repeat split; lia.
  - destruct (sys_step cfg s ev) as [[s1 es1]|] eqn:Hstep; [|discriminate Hrun].
    destruct (sys_run cfg s1 evs) as [[s2 es2]|] eqn:Hrest; [|discriminate Hrun].
    injection Hrun as <- <-.
    destruct (IH s1 s2 es2 Hrest) as (Hc & Ha & Hs & Hw).
    assert (Hstep1 : counters s1 = apply_effects (counters s) es1
                     /\ delta Active es1
                        = sumZ (fun w => pending (defers w)) (workers s1)
                          - sumZ (fun w => pending (defers w)) (workers s)
                     /\ delta Successful es1 - delta Active es1
                        = Z.of_nat (count_add Active (-1) es1)
                     /\ 0 <= delta Successful es1 <= weight ev).
    { destruct ev as [| |i o]; cbn [sys_step] in Hstep.
      - destruct (Z.of_nat (length (workers s)) <? concurrency cfg);
          injection Hstep as <- <-; cbn [counters workers delta weight];
          rewrite ?sumZ_app, ?count_add_nil; simpl; repeat split; lia.
      - destruct (close (signal s)); [|discriminate Hstep].
        injection Hstep as <- <-. cbn [counters workers delta weight].
        rewrite count_add_nil. repeat split; lia.
      - assert (Hw0 : 0 <= weight (Iter i o)) by (simpl; destruct (read o); lia).
        destruct (workers s !! i) as [w|] eqn:Hi.
        2:{ injection Hstep as <- <-. cbn [delta]. rewrite count_add_nil.
            repeat split; lia. }
        pose proof (worker_iter_active (verbose cfg) (is_closed (signal s)) o w) as [Hd _].
        pose proof (worker_iter_successful (verbose cfg) (is_closed (signal s)) o w) as Hsu.
        pose proof (worker_iter_bounds (verbose cfg) (is_closed (signal s)) o w i
                      Successful ltac:(discriminate)) as Hb.
        destruct (worker_iter (verbose cfg) (is_closed (signal s)) o w) as [w' es'].
        cbn [fst snd] in *. injection Hstep as <- <-. cbn [counters workers].
        rewrite (sumZ_insert _ _ i w w' Hi).
        repeat split; try lia. }
    destruct Hstep1 as (Hc1 & Ha1 & Hs1 & Hw1).
    cbn [total_weight fold_right]. fold (total_weight evs).
    rewrite apply_effects_app, <- Hc1, !delta_app, count_add_app, Nat2Z.inj_add.
    repeat split; try assumption; lia.
Qed.

(** X9: in a run from the initial state whose events weigh at most
    [MaxInt64], [active] is the number of decrements the workers still have
    deferred, it lies between zero and [successful], and [successful] exceeds
    it by the number of decrements performed so far, which are those of the
    workers that have returned. *)
Theorem active_at_most_successful (cfg : Config) (evs : list Event) (s : Sys)
        (es : list Effect) :
  total_weight evs <= MaxInt64 ->
  sys_run cfg initial_sys evs = Some (s, es) ->
  activeConnections (counters s) = sumZ (fun w => pending (defers w)) (workers s)
  /\ 0 <= activeConnections (counters s) <= successfulConnections (counters s)
  /\ successfulConnections (counters s) - activeConnections (counters s)
     = Z.of_nat (count_add Active (-1) es).
Proof.
  intros Hw Hrun.
  destruct (sys_run_trace cfg evs initial_sys s es Hrun) as (Hc & Ha & Hs & Hb).
  cbn [initial_sys workers sumZ fold_right] in Ha. rewrite Z.sub_0_r in Ha.
  pose proof (sumZ_pending_nonneg (workers s)) as Hn.
  assert (HA : activeConnections (counters s) = delta Active es).
  { change (activeConnections (counters s)) with (get Active (counters s)).
    rewrite Hc. rewrite (get_apply_effects_exact Active es); cbn [initial_sys counters];
      unfold MinInt64, MaxInt64 in *; simpl; lia. }
  assert (HS : successfulConnections (counters s) = delta Successful es).
  { change (successfulConnections (counters s)) with (get Successful (counters s)).
    rewrite Hc. rewrite (get_apply_effects_exact Successful es); cbn [initial_sys counters];
      unfold MinInt64, MaxInt64 in *; simpl; lia. }
  rewrite HA, HS. repeat split; lia.
Qed.

Lemma active_at_most_successful_witness :
  exists s es,
    sys_run (mkConfig 2 false) initial_sys
      [Spawn; Iter 0 (mkOutcome (Some 7) (ReadErr OtherError) true);
       Iter 0 (mkOutcome (Some 8) (ReadErr OtherError) true);
       Iter 0 (mkOutcome (Some 8) (ReadErr OtherError) true);
       Spawn; Iter 1 (mkOutcome (Some 9) (ReadErr OtherError) true); Fire;
       Iter 0 (mkOutcome None (ReadErr OtherError) true)] = Some (s, es)
    /\ successfulConnections (counters s) = 3
    /\ activeConnections (counters s) = 1
    /\ 0 <= activeConnections (counters s) <= successfulConnections (counters s).
Proof.
  eexists. eexists. split; [reflexivity|]. split; [reflexivity|]. split; [reflexivity|].
  eapply (active_at_most_successful (mkConfig 2 false)
            [Spawn; Iter 0 (mkOutcome (Some 7) (ReadErr OtherError) true);
             Iter 0 (mkOutcome (Some 8) (ReadErr OtherError) true);
             Iter 0 (mkOutcome (Some 8) (ReadErr OtherError) true);
             Spawn; Iter 1 (mkOutcome (Some 9) (ReadErr OtherError) true); Fire;
             Iter 0 (mkOutcome None (ReadErr OtherError) true)]).
  - vm_compute. discriminate.
  - reflexivity.
Defined.

(** ** After the shutdown signal *)

Lemma sumZ_alive_terminated (ws : list Worker) :
  Forall (fun w => phase w = Terminated) ws -> sumZ alive ws = 0.
Proof.
  unfold sumZ. induction 1 as [|w ws Hp _ IH]; cbn [fold_right]; [reflexivity|].
  rewrite IH. unfold alive. rewrite Hp. reflexivity.
Qed.

(** One event with [shutdown] closed: the channel stays closed, a worker
    that has returned stays so, and the worker the event schedules returns. *)
Lemma sys_step_closed (cfg : Config) (s s' : Sys) (ev : Event) (es : list Effect) :
  signal s = Closed ->
  sys_step cfg s ev = Some (s', es) ->
  signal s' = Closed
  /\ forall (i : nat) (w : Worker),
       workers s !! i = Some w ->
       exists w', workers s' !! i = Some w'
                  /\ (phase w = Terminated -> phase w' = Terminated)
                  /\ ((exists o, ev = Iter i o) -> phase w' = Terminated).
Proof.
  intros Hc Hstep. destruct ev as [| |j o]; cbn [sys_step] in Hstep.
  - destruct (Z.of_nat (length (workers s)) <? concurrency cfg);
      injection Hstep as <- <-; cbn [signal workers]; (split; [exact Hc|]);
      intros i w Hi; exists w.
    + split; [apply lookup_app_l_Some; exact Hi|].
      split; [auto | intros [o Ho]; discriminate Ho].
    + split; [exact Hi|]. split; [auto | intros [o Ho]; discriminate Ho].
  - rewrite Hc in Hstep. discriminate Hstep.
  - destruct (workers s !! j) as [wj|] eqn:Hj.
    2:{ injection Hstep as <- <-. split; [exact Hc|].
        intros i w Hi. exists w. split; [exact Hi|]. split; [auto|].
        intros [o' Ho]. injection Ho as <- _. rewrite Hi in Hj. discriminate Hj. }
    rewrite Hc in Hstep. cbn [is_closed] in Hstep.
    pose proof (worker_iter_returns_iff (verbose cfg) true o wj) as Hret.
    pose proof (terminated_stays (verbose cfg) true o wj) as Hstay.
    destruct (worker_iter (verbose cfg) true o wj) as [w' es'] eqn:Hit.
    cbn [fst] in Hret. injection Hstep as <- <-. cbn [signal workers].
    split; [reflexivity|].
    assert (Hw' : phase w' = Terminated).
    { destruct (phase wj) eqn:Hp.
      - apply Hret; [discriminate | reflexivity].
      - apply Hret; [discriminate | reflexivity].
      - specialize (Hstay eq_refl). injection Hstay as <- _. exact Hp. }
    intros i w Hi. destruct (Nat.eq_dec i j) as [->|Hne].
    + exists w'. split; [|split; intros _; exact Hw'].
      apply list_lookup_insert_eq. apply lookup_lt_Some in Hi. exact Hi.
    + exists w. split; [rewrite list_lookup_insert_ne by congruence; exact Hi|].
      split; [auto|]. intros [o' Ho]. injection Ho as -> _. contradiction Hne. reflexivity.
Qed.

Lemma sys_run_closed (cfg : Config) (evs : list Event) :
  forall (s s' : Sys) (es : list Effect),
    signal s = Closed ->
    sys_run cfg s evs = Some (s', es) ->
    forall (i : nat) (w : Worker),
      workers s !! i = Some w ->
      phase w = Terminated \/ scheduled i evs = true ->
      exists w', workers s' !! i = Some w' /\ phase w' = Terminated.
Proof.
  induction evs as [|ev evs IH]; intros s s' es Hc Hrun i w Hi Hor; cbn [sys_run] in Hrun.
  - injection Hrun as <- <-. exists w. split; [exact Hi|].
    destruct Hor as [Hp|Hs]; [exact Hp | discriminate Hs].
  - destruct (sys_step cfg s ev) as [[s1 es1]|] eqn:Hstep; [|discriminate Hrun].
    destruct (sys_run cfg s1 evs) as [[s2 es2]|] eqn:Hrest; [|discriminate Hrun].
    injection Hrun as <- <-.
    destruct (sys_step_closed cfg s s1 ev es1 Hc Hstep) as [Hc1 Hw1].
    destruct (Hw1 i w Hi) as (w1 & Hi1 & Hkeep & Hsched).
    apply (IH s1 s2 es2 Hc1 Hrest i w1 Hi1).
    destruct Hor as [Hp|Hs]; [left; auto|].
    unfold scheduled in Hs. cbn [existsb] in Hs. apply orb_true_iff in Hs.
    destruct Hs as [Hs|Hs]; [|right; exact Hs].
    left. apply Hsched. destruct ev as [| |j o]; try discriminate Hs.
    apply Nat.eqb_eq in Hs. subst j. exists o. reflexivity.
Qed.

(** X10: once [shutdown] is closed in a run and no more workers are
    started, as soon as every worker has been scheduled for one more
    iteration they have all returned, the wait group's counter is zero, so
    that [wg.Wait()] returns, and [active] is zero. *)
Theorem shutdown_drains_workers (cfg : Config) (evs1 evs2 : list Event) (s1 s2 : Sys)
        (es1 es2 : list Effect) :
  sys_run cfg initial_sys evs1 = Some (s1, es1) ->
  signal s1 = Closed ->
  sys_run cfg s1 evs2 = Some (s2, es2) ->
  forallb (fun ev => negb (is_spawn ev)) evs2 = true ->
  (forall i : nat, (i < length (workers s1))%nat -> scheduled i evs2 = true) ->
  Forall (fun w => phase w = Terminated) (workers s2)
  /\ wg s2 = 0
  /\ activeConnections (counters s2) = 0.
Proof.
  intros Hrun1 Hc Hrun2 Hns Hall.
  pose proof (sys_run_inv cfg evs1 initial_sys s1 es1 sys_inv_initial Hrun1) as Hinv1.
  destruct (sys_run_inv cfg evs2 s1 s2 es2 Hinv1 Hrun2) as (Ha & Hg & Hwf).
  destruct (sys_run_workers cfg evs2 s1 s2 es2 Hrun2) as (_ & _ & Hlen).
  specialize (Hlen Hns).
  assert (Ht : Forall (fun w => phase w = Terminated) (workers s2)).
  { apply Forall_lookup_2. intros i w2 Hi2.
    assert (Hlt : (i < length (workers s1))%nat).
    { rewrite <- Hlen. apply lookup_lt_Some in Hi2. exact Hi2. }
    destruct (lookup_lt_is_Some_2 (workers s1) i Hlt) as [w1 Hi1].
    destruct (sys_run_closed cfg evs2 s1 s2 es2 Hc Hrun2 i w1 Hi1
                (or_intror (Hall i Hlt))) as (w' & Hi' & Hp).
    rewrite Hi2 in Hi'. injection Hi' as <-. exact Hp. }
  split; [exact Ht|].
  split; [rewrite Hg; apply sumZ_alive_terminated; exact Ht|].
  rewrite Ha, (sumZ_pending_terminated _ Hwf Ht). reflexivity.
Qed.

Lemma shutdown_drains_workers_witness :
  exists s1 es1 s2 es2,
    sys_run (mkConfig 2 true) initial_sys
      [Spawn; Iter 0 (mkOutcome (Some 7) (ReadErr OtherError) true);
       Spawn; Iter 0 (mkOutcome (Some 8) (ReadErr OtherError) true);
       Iter 0 (mkOutcome (Some 8) (ReadErr OtherError) true); Fire] = Some (s1, es1)
    /\ sys_run (mkConfig 2 true) s1
         [Iter 1 (mkOutcome (Some 9) (ReadErr OtherError) true);
          Iter 0 (mkOutcome (Some 9) (ReadErr OtherError) true)] = Some (s2, es2)
    /\ activeConnections (counters s1) = 2
    /\ wg s2 = 0
    /\ activeConnections (counters s2) = 0.
Proof.
  eexists. eexists. eexists. eexists.
  split; [reflexivity|]. split; [reflexivity|]. split; [reflexivity|].
  eapply (shutdown_drains_workers (mkConfig 2 true)
            [Spawn; Iter 0 (mkOutcome (Some 7) (ReadErr OtherError) true);
             Spawn; Iter 0 (mkOutcome (Some 8) (ReadErr OtherError) true);
             Iter 0 (mkOutcome (Some 8) (ReadErr OtherError) true); Fire]
            [Iter 1 (mkOutcome (Some 9) (ReadErr OtherError) true);
             Iter 0 (mkOutcome (Some 9) (ReadErr OtherError) true)]).
  - reflexivity.
  - reflexivity.
  - reflexivity.
  - reflexivity.
  - intros [|[|i]] Hi; [reflexivity | reflexivity | simpl in Hi; lia].
Defined.

Lemma deferred_no_calls (ds : list Deferred) :
  ~ In Dial (concat (map run_deferred ds))
  /\ forall c, ~ In (ReadMessage c) (concat (map run_deferred ds)).
Proof.
  induction ds as [|d ds [IH1 IH2]]; [split; [|intros c]; intros []|].
  cbn [map concat]. split; [|intros c]; rewrite in_app_iff; intros [H|H];
    try (apply IH1; exact H); try (apply (IH2 c); exact H);
    destruct d; simpl in H; intuition discriminate.
Qed.

(** X11: the iteration in which a live worker finds [shutdown] closed makes
    no dial and no read and adds nothing to [successful], [failed] and
    [bytesRead]; it takes back from [active] all the worker had added; and
    a connected worker first writes a close frame to its connection and
    sleeps the grace period, then runs its deferred calls. *)
Theorem shutdown_iteration (verbose : bool) (o : Outcome) (w : Worker) :
  phase w <> Terminated ->
  ~ In Dial (snd (worker_iter verbose true o w))
  /\ (forall c, ~ In (ReadMessage c) (snd (worker_iter verbose true o w)))
  /\ delta Successful (snd (worker_iter verbose true o w)) = 0
  /\ delta Failed (snd (worker_iter verbose true o w)) = 0
  /\ delta BytesRead (snd (worker_iter verbose true o w)) = 0
  /\ delta Active (snd (worker_iter verbose true o w)) = - pending (defers w)
  /\ (forall conn, phase w = Connected conn ->
                   snd (worker_iter verbose true o w)
                   = vlog verbose (LogReceivedShutdown conn)
                     ++ [WriteMessage conn websocket.CloseMessage; Sleep closeGrace]
                     ++ concat (map run_deferred (defers w))).
Proof.
  intros Hlive.
  pose proof (deferred_effects (defers w)) as (Hd & Hz & _).
  pose proof (Hz Successful ltac:(discriminate)) as HzS.
  pose proof (Hz Failed ltac:(discriminate)) as HzF.
  pose proof (Hz BytesRead ltac:(discriminate)) as HzB.
  destruct (deferred_no_calls (defers w)) as [Hn1 Hn2].
  unfold worker_iter, connecting_iter, connected_iter, do_return.
  destruct (phase w) as [|conn|] eqn:Hp; [| |contradiction Hlive; reflexivity];
    cbn [snd]; rewrite !delta_app, Hd, HzS, HzF, HzB.
  - split; [rewrite in_app_iff; intros [H|H]; [destruct verbose; simpl in H;
                                                intuition discriminate | auto]|].
    split; [intros c; rewrite in_app_iff; intros [H|H];
            [destruct verbose; simpl in H; intuition discriminate | apply (Hn2 c H)]|].
    destruct verbose; simpl; repeat split; try lia; intros conn H; discriminate H.
  - split; [rewrite !in_app_iff; intros [[H|H]|H]; [destruct verbose| |auto];
            simpl in H; intuition discriminate|].
    split; [intros c; rewrite !in_app_iff; intros [[H|H]|H];
            [destruct verbose| |apply (Hn2 c H)]; simpl in H; intuition discriminate|].
    destruct verbose; simpl; repeat split; try lia;
      intros conn' H; injection H as <-; reflexivity.
Qed.

Lemma shutdown_iteration_witness :
  delta Active
    (snd (worker_iter true true (mkOutcome (Some 9) (ReadErr OtherError) true)
            (mkWorker (Connected 8) 0
               [DConnClose 8; DDecActive; DConnClose 7; DDecActive; DRecover; DWgDone])))
  = -2.
Proof.
  apply (shutdown_iteration true (mkOutcome (Some 9) (ReadErr OtherError) true)
           (mkWorker (Connected 8) 0
              [DConnClose 8; DDecActive; DConnClose 7; DDecActive; DRecover; DWgDone])).
  discriminate.
Defined.
